(** * Chart.tsx: occupancy grid, flattening, plot marks and slider handlers

    A shallow embedding of [src/components/Chart/Chart.tsx].

    JavaScript numbers are IEEE 754 binary64 values.  They are modelled by
    the [spec_float] type of the standard library, instantiated at
    precision 53 and maximal exponent 1024, so that every arithmetic
    operation of the source ([*], [+], [-], [Math.floor]) rounds exactly as
    it does in the browser. *)

From Stdlib Require Import ZArith Lia Bool Ascii String.
From Stdlib Require Import Floats.SpecFloat.
From stdpp Require Import base list strings pretty.

Open Scope Z_scope.

(** ** Numbers *)

Definition number := spec_float.

Definition prec : Z := 53.
Definition emax : Z := 1024.

(** The values a JavaScript number can take: finite values have a
    canonical mantissa and exponent. *)
Definition is_number (a : number) : bool := valid_binary prec emax a.

Definition NaN : number := S754_nan.
Definition add : number -> number -> number := SFadd prec emax.
Definition sub : number -> number -> number := SFsub prec emax.
Definition mul : number -> number -> number := SFmul prec emax.
Definition neg : number -> number := SFopp.
Definition leb : number -> number -> bool := SFleb.
Definition ltb : number -> number -> bool := SFltb.

(** The number nearest to the integer [z] (an integer literal). *)
Definition of_Z (z : Z) : number := binary_normalize prec emax z 0 false.

(** The number nearest to [m * 10 ^ e] (a decimal literal such as [0.2],
    written [decimal 2 (-1)]); ties go to the even mantissa. *)
Definition decimal (m : N) (e : Z) : number :=
  match m with
  | N0 => S754_zero false
  | Npos p =>
      match e with
      | Zneg k => SFdiv prec emax (S754_finite false p 0)
                                  (S754_finite false (Pos.pow 10 k) 0)
      | _ => of_Z (Zpos p * 10 ^ e)
      end
  end.

(** [Math.floor]: NaN, the infinities and both zeros are returned as they
    are, and so is a finite number without fractional bits. *)
Definition Math_floor (a : number) : number :=
  match a with
  | S754_finite s m (Zneg k) =>
      match Z.shiftr (cond_Zopp s (Zpos m)) (Zpos k) with
      | Z0 => S754_zero s
      | z => of_Z z
      end
  | _ => a
  end.

(** The integer a number denotes, when it denotes one. *)
Definition integer_value (a : number) : option Z :=
  match a with
  | S754_zero _ => Some 0
  | S754_finite s m (Zneg k) =>
      if Z.land (Zpos m) (Z.ones (Zpos k)) =? 0
      then Some (cond_Zopp s (Z.shiftr (Zpos m) (Zpos k)))
      else None
  | S754_finite s m e => Some (cond_Zopp s (Z.shiftl (Zpos m) e))
  | _ => None
  end.

(** A number used as a property key of an array names an element when it
    is an integer in [0, 2^32 - 2] (the key of [-0] is ["0"]); every other
    key names an ordinary property. *)
Definition array_index (a : number) : option nat :=
  match integer_value a with
  | Some z => if (0 <=? z) && (z <? 2 ^ 32 - 1) then Some (Z.to_nat z) else None
  | None => None
  end.

(** ** Values and abrupt completion *)

(** What reading an array element can give: a number, or [undefined]
    (also what a hole reads as, and what the spread syntax copies a hole
    to). *)
Inductive jsval :=
  | VNum (n : number)
  | VUndefined.

Definition ToNumber (v : jsval) : number :=
  match v with
  | VNum n => n
  | VUndefined => NaN
  end.

(** A call either returns or throws a [TypeError] (whose message is not
    modelled). *)
Inductive result (A : Type) :=
  | Ok (a : A)
  | TypeError.
Arguments Ok {A} a.
Arguments TypeError {A}.

Definition bind {A B} (r : result A) (f : A -> result B) : result B :=
  match r with
  | Ok a => f a
  | TypeError => TypeError
  end.

(** [data.forEach(f)] over a state threaded through the callback: the
    first throw ends the loop. *)
Fixpoint forEach {A S} (f : S -> A -> result S) (data : list A) (s : S)
  : result S :=
  match data with
  | [] => Ok s
  | d :: rest => bind (f s d) (forEach f rest)
  end.

(** ** Session data *)

Inductive Scope := LOCAL | GLOBAL.

Record SessionData := {
  x : number;
  y : number;
  scope : Scope;
}.

(** ** getGrid *)

(** [Array.from({ length }, () => a)]: the callback builds a fresh value for
    every element, so no two rows of the grid are the same array. *)
Definition Array_from {A} (length : nat) (a : A) : list A := replicate length a.

(** [row[k]]: a missing element and a missing property read as
    [undefined]. *)
Definition get (row : list jsval) (k : number) : jsval :=
  match array_index k with
  | Some j => default VUndefined (row !! j)
  | None => VUndefined
  end.

(** [row[k] = v]: inside the array the element is replaced; past its end
    the array grows to length [j + 1], the elements in between being holes;
    a key that is no array index sets an ordinary property and leaves the
    elements alone (the model keeps the elements only). *)
Definition put (row : list jsval) (k : number) (v : jsval) : list jsval :=
  match array_index k with
  | Some j =>
      if (j <? length row)%nat then <[j := v]> row
      else row ++ replicate (j - length row) VUndefined ++ [v]
  | None => row
  end.

(** [row[k] += n], that is [row[k] = row[k] + n]; [undefined + n] is
    NaN. *)
Definition plus_assign (row : list jsval) (k : number) (n : number)
  : list jsval :=
  put row k (VNum (add (ToNumber (get row k)) n)).

(** The callback that [getGrid] hands to [forEach].  [grid[yIndex]] is
    [undefined] when [yIndex] names no row, and reading a property of
    [undefined] throws.  The rows are distinct arrays, so updating one
    leaves the others unchanged. *)
Definition visit (grid : list (list jsval)) (d : SessionData)
  : result (list (list jsval)) :=
  let xIndex := Math_floor (mul (x d) (of_Z 100)) in
  let yIndex := Math_floor (mul (y d) (of_Z 100)) in
  match array_index yIndex with
  | Some i =>
      match grid !! i with
      | Some row => Ok (<[i := plus_assign row xIndex (of_Z 1)]> grid)
      | None => TypeError
      end
  | None => TypeError
  end.

Definition getGrid (data : list SessionData) : result (list (list jsval)) :=
  let grid := Array_from 100 (Array_from 100 (VNum (of_Z 0))) in
  forEach visit data grid.

(** ** flattenGrid *)

(** [grid.map((row) => flatGrid.push(...row))]: the rows are appended to
    [flatGrid] one after the other. *)
Definition flattenGrid {A} (grid : list (list A)) : list A :=
  fold_left (fun flatGrid row => flatGrid ++ row) grid [].


(** ** Numbers and strings *)

(** A finite positive number [m * 2 ^ e] as a fraction of integers. *)
Definition fraction (m : positive) (e : Z) : Z * Z :=
  match e with
  | Zneg k => (Zpos m, 2 ^ Zpos k)
  | _ => (Zpos m * 2 ^ e, 1)
  end.

(** [num / den * 10 ^ p] as a fraction. *)
Definition scale10 (q : Z * Z) (p : Z) : Z * Z :=
  match p with
  | Zneg k => (fst q, snd q * 10 ^ Zpos k)
  | _ => (fst q * 10 ^ p, snd q)
  end.

(** The least [n], searched upwards from [n0], with [q < 10 ^ n]. *)
Fixpoint decimal_exponent (fuel : nat) (q : Z * Z) (n0 : Z) : Z :=
  match fuel with
  | O => n0
  | S fuel' =>
      let '(a, b) := scale10 q (- n0) in
      if a <? b then n0 else decimal_exponent fuel' q (n0 + 1)
  end.

(** The [k]-digit decimals next to [a]: the one below and the one above,
    each kept when it reads back as [a], the nearer one first. *)
Definition shortest_at (a : number) (q : Z * Z) (n : Z) (k : Z) : option (Z * Z) :=
  let '(u, v) := scale10 q (k - n) in
  let lo := u / v in
  let hi := lo + 1 in
  let ok s := SFeqb (decimal (Z.to_N s) (n - k)) a in
  let norm s := if s =? 10 ^ k then (10 ^ (k - 1), n + 1) else (s, n) in
  match ok lo, ok hi with
  | true, true =>
      match 2 * u ?= (2 * lo + 1) * v with
      | Lt => Some (norm lo)
      | Gt => Some (norm hi)
      | Eq => Some (norm (if Z.even lo then lo else hi))
      end
  | true, false => Some (norm lo)
  | false, true => Some (norm hi)
  | false, false => None
  end.

(** The least number of digits [k], at most 17, with which [a] can be
    written, with the digits [s] and the decimal exponent [n]. *)
Fixpoint shortest (fuel : nat) (a : number) (q : Z * Z) (n : Z) (k : Z)
  : Z * Z * Z :=
  match fuel with
  | O => (k, 0, n)
  | S fuel' =>
      match shortest_at a q n k with
      | Some (s, n') => (k, s, n')
      | None => shortest fuel' a q n (k + 1)
      end
  end.

Definition zeros (n : Z) : string := String.concat "" (replicate (Z.to_nat n) "0").

Definition exponent_suffix (e : Z) : string :=
  "e" +:+ (if e <? 0 then "-" else "+") +:+ pretty (Z.abs e).

(** [Number::toString] in radix 10: the shortest digit string that reads
    back as the number, laid out as the language prescribes. *)
Definition Number_toString (a : number) : string :=
  match a with
  | S754_nan => "NaN"
  | S754_zero _ => "0"
  | S754_infinity s => if s then "-Infinity" else "Infinity"
  | S754_finite sg m e =>
      let q := fraction m e in
      let n0 := decimal_exponent 640 q (-324) in
      let '(k, s, n) := shortest 17 (S754_finite false m e) q n0 1 in
      let ds := pretty s in
      let body :=
        if (k <=? n) && (n <=? 21) then ds +:+ zeros (n - k)
        else if (0 <? n) && (n <=? 21) then
          String.substring 0 (Z.to_nat n) ds +:+ "." +:+
          String.substring (Z.to_nat n) (Z.to_nat (k - n)) ds
        else if (-6 <? n) && (n <=? 0) then "0." +:+ zeros (- n) +:+ ds
        else if k =? 1 then ds +:+ exponent_suffix (n - 1)
        else String.substring 0 1 ds +:+ "." +:+
             String.substring 1 (Z.to_nat (k - 1)) ds +:+ exponent_suffix (n - 1)
      in
      if sg then "-" +:+ body else body
  end.

(** Leading white space that [parseFloat] skips (the code units below
    128). *)
Definition is_white_space (c : ascii) : bool :=
  let n := N_of_ascii c in
  ((9 <=? n) && (n <=? 13) || (n =? 32))%N.

Fixpoint trim_start (s : string) : string :=
  match s with
  | String c rest => if is_white_space c then trim_start rest else s
  | EmptyString => s
  end.

Definition digit_of (c : ascii) : option N :=
  let n := N_of_ascii c in
  if ((48 <=? n) && (n <=? 57))%N then Some (n - 48)%N else None.

(** Reads decimal digits: the value read after [acc], how many digits
    there were, and the rest of the string. *)
Fixpoint read_digits (s : string) (acc : N) (count : nat) : N * nat * string :=
  match s with
  | String c rest =>
      match digit_of c with
      | Some d => read_digits rest (10 * acc + d)%N (S count)
      | None => (acc, count, s)
      end
  | EmptyString => (acc, count, s)
  end.

(** An exponent part [e], [e+] or [e-] followed by at least one digit;
    anything else is no exponent part. *)
Definition read_exponent (s : string) : Z :=
  match s with
  | String c rest =>
      if (N_of_ascii c =? 101)%N || (N_of_ascii c =? 69)%N then
        let '(sg, rest') :=
          match rest with
          | String "-" r => (true, r)
          | String "+" r => (false, r)
          | _ => (false, rest)
          end in
        let '(v, count, _) := read_digits rest' 0%N 0%nat in
        match count with
        | O => 0
        | _ => cond_Zopp sg (Z.of_N v)
        end
      else 0
  | EmptyString => 0
  end.

(** [parseFloat]: the longest prefix of the trimmed string that is a
    decimal literal, or NaN when there is none. *)
Definition parseFloat (s : string) : number :=
  let s := trim_start s in
  let '(sg, s) :=
    match s with
    | String "-" r => (true, r)
    | String "+" r => (false, r)
    | _ => (false, s)
    end in
  let sign a := if sg : bool then neg a else a in
  if String.prefix "Infinity" s then sign (S754_infinity false)
  else
    let '(ip, ni, s1) := read_digits s 0%N 0%nat in
    let '(m, nf, s2) :=
      match s1 with
      | String "." r => read_digits r ip 0%nat
      | _ => (ip, 0%nat, s1)
      end in
    match (ni + nf)%nat with
    | O => NaN
    | _ => sign (decimal m (read_exponent s2 - Z.of_nat nf))
    end.

(** ** The emotion catalog *)

Record Emotion := {
  name : string;
  color : option (number * number * number);
  hsl : option (number * number * number);
  position : number * number;
}.

Definition emotions : list Emotion := [
  {| name := "joy";
     color := Some (of_Z 255, of_Z 248, of_Z 77);
     hsl := None;
     position := (decimal 97 (-2), decimal 56 (-2)) |};
  {| name := "excited";
     color := Some (of_Z 242, of_Z 136, of_Z 38);
     hsl := None;
     position := (decimal 845 (-3), decimal 86 (-2)) |};
  {| name := "alarmed";
     color := Some (of_Z 210, of_Z 37, of_Z 25);
     hsl := Some (of_Z 4, decimal 79 (-2), decimal 46 (-2));
     position := (decimal 46 (-2), decimal 945 (-3)) |};
  {| name := "annoyed";
     color := Some (of_Z 182, of_Z 18, of_Z 67);
     hsl := Some (of_Z 342, decimal 82 (-2), decimal 39 (-2));
     position := (decimal 28 (-2), decimal 83 (-2)) |};
  {| name := "anxious";
     color := Some (of_Z 239, of_Z 92, of_Z 180);
     hsl := None;
     position := (decimal 14 (-2), decimal 105 (-3)) |};
  {| name := "bored";
     color := Some (of_Z 99, of_Z 26, of_Z 192);
     hsl := None;
     position := (decimal 33 (-2), decimal 105 (-3)) |};
  {| name := "serious";
     color := Some (of_Z 43, of_Z 48, of_Z 170);
     hsl := None;
     position := (decimal 61 (-2), decimal 17 (-2)) |};
  {| name := "relaxed";
     color := Some (of_Z 26, of_Z 179, of_Z 192);
     hsl := None;
     position := (decimal 855 (-3), decimal 17 (-2)) |};
  {| name := "neutral";
     color := Some (of_Z 128, of_Z 128, of_Z 128);
     hsl := None;
     position := (decimal 5 (-1), decimal 5 (-1)) |}
].

Definition toRgb (color : number * number * number) : string :=
  let '(r, g, b) := color in
  "rgb(" +:+ Number_toString r +:+ ", " +:+ Number_toString g +:+ ", "
         +:+ Number_toString b +:+ ")".

(** ** Component state *)

Record State := {
  localData : option (list SessionData);
  globalData : option (list SessionData);
  displayPoints : bool;
  opacity : number;
  bandwidth : number;
  skew : number;
}.

(** The initial values given to [useState]. *)
Definition initial : State := {|
  localData := Some [];
  globalData := Some [];
  displayPoints := false;
  opacity := of_Z 5;
  bandwidth := of_Z 20;
  skew := of_Z 0;
|}.

Definition setDisplayPoints (b : bool) (s : State) : State :=
  {| localData := localData s; globalData := globalData s;
     displayPoints := b;
     opacity := opacity s; bandwidth := bandwidth s; skew := skew s |}.

Definition setOpacity (v : number) (s : State) : State :=
  {| localData := localData s; globalData := globalData s;
     displayPoints := displayPoints s;
     opacity := v; bandwidth := bandwidth s; skew := skew s |}.

Definition setBandwidth (v : number) (s : State) : State :=
  {| localData := localData s; globalData := globalData s;
     displayPoints := displayPoints s;
     opacity := opacity s; bandwidth := v; skew := skew s |}.

Definition setSkew (v : number) (s : State) : State :=
  {| localData := localData s; globalData := globalData s;
     displayPoints := displayPoints s;
     opacity := opacity s; bandwidth := bandwidth s; skew := v |}.

(** ** Event handlers *)

(** A change event, reduced to [event.target.value]. *)
Record ChangeEvent := { target_value : string }.

Definition togglePoints (s : State) : State :=
  setDisplayPoints (negb (displayPoints s)) s.

Definition handleOpacityChange (event : ChangeEvent) (s : State) : State :=
  let newOpacity := parseFloat (target_value event) in
  setOpacity newOpacity s.

Definition handleBandwidthChange (event : ChangeEvent) (s : State) : State :=
  let newBandwidth := parseFloat (target_value event) in
  setBandwidth newBandwidth s.

Definition handleSkewChange (event : ChangeEvent) (s : State) : State :=
  let newSkew := parseFloat (target_value event) in
  setSkew newSkew s.

(** ** The sliders of the rendered form *)

Module Range.

Record Input := { min : string; max : string; step : string }.

(** [min <= v <= max], the bounds read as numbers. *)
Definition contains (i : Input) (v : number) : bool :=
  leb (parseFloat (min i)) v && leb v (parseFloat (max i)).

End Range.

Definition opacityInput : Range.Input :=
  {| Range.min := "0"; Range.max := "1"; Range.step := "0.1" |}.
Definition bandwidthInput : Range.Input :=
  {| Range.min := "10"; Range.max := "80"; Range.step := "2" |}.
Definition skewInput : Range.Input :=
  {| Range.min := "-1"; Range.max := "1"; Range.step := ".01" |}.

(** ** Plot marks *)

Module Density.

Record Options := {
  weight : option number;
  x : string;
  y : string;
  opacity : option number;
  bandwidth : number;
  fill : option string;
  fillOpacity : option number;
  stroke : string;
  strokeOpacity : number;
  thresholds : number;
}.

End Density.

Module Dot.

Record Options := {
  x : string;
  y : string;
  fill : string;
  stroke : string;
  strokeOpacity : number;
  fillOpacity : number;
  r : number;
}.

End Dot.

(** Options of the two marks drawn from the emotion catalog; their
    channels are functions of a catalog entry. *)
Module Annotation.

Record Options := {
  x : Emotion -> number;
  y : Emotion -> number;
  text : option (Emotion -> string);
  lineAnchor : option string;
  dy : option number;
  fill : option (Emotion -> result string);
}.

End Annotation.

Inductive Mark :=
  | Plot_frame
  | Plot_density (data : list SessionData) (options : Density.Options)
  | Plot_dot (data : list SessionData) (options : Dot.Options)
  | Plot_text (data : list Emotion) (options : Annotation.Options)
  | Plot_dot_emotions (data : list Emotion) (options : Annotation.Options).

(** [toRgb(d.color!)]: the assertion is erased when the program runs, and
    destructuring [undefined] throws. *)
Definition fillOf (d : Emotion) : result string :=
  match color d with
  | Some c => Ok (toRgb c)
  | None => TypeError
  end.

(** The [marks] array handed to [Plot.plot]; [None] stands for the [null]
    entry.  The effect returns before plotting when a dataset is
    [undefined]. *)
Definition marks (s : State) : option (list (option Mark)) :=
  match localData s, globalData s with
  | Some localData, Some globalData =>
      Some [
        Some Plot_frame;
        Some (Plot_density globalData {|
          Density.weight := Some (decimal 2 (-1));
          Density.x := "x";
          Density.y := "y";
          Density.opacity := None;
          Density.bandwidth := bandwidth s;
          Density.fill := None;
          Density.fillOpacity := None;
          Density.stroke := "density";
          Density.strokeOpacity := sub (opacity s) (skew s);
          Density.thresholds := of_Z 100;
        |});
        Some (Plot_density localData {|
          Density.weight := None;
          Density.x := "x";
          Density.y := "y";
          Density.opacity := Some (of_Z 1);
          Density.bandwidth := bandwidth s;
          Density.fill := Some "density";
          Density.fillOpacity := Some (add (opacity s) (skew s));
          Density.stroke := "density";
          Density.strokeOpacity := add (opacity s) (skew s);
          Density.thresholds := of_Z 100;
        |});
        (if displayPoints s then
           Some (Plot_dot localData {|
             Dot.x := "x";
             Dot.y := "y";
             Dot.fill := "white";
             Dot.stroke := "white";
             Dot.strokeOpacity := decimal 5 (-1);
             Dot.fillOpacity := decimal 2 (-1);
             Dot.r := decimal 15 (-1);
           |})
         else None);
        Some (Plot_text emotions {|
          Annotation.x := fun d => fst (position d);
          Annotation.y := fun d => snd (position d);
          Annotation.text := Some name;
          Annotation.lineAnchor := Some "bottom";
          Annotation.dy := Some (neg (of_Z 8));
          Annotation.fill := None;
        |});
        Some (Plot_dot_emotions emotions {|
          Annotation.x := fun d => fst (position d);
          Annotation.y := fun d => snd (position d);
          Annotation.text := None;
          Annotation.lineAnchor := None;
          Annotation.dy := None;
          Annotation.fill := Some fillOf;
        |})
      ]
  | _, _ => None
  end.

(** ** Reshaping (specification side) *)

(** The inverse the specification names for [flattenGrid]: the sequence is
    cut into consecutive rows of length [R]. *)
Fixpoint rows_of {A} (n R : nat) (flat : list A) : list (list A) :=
  match n with
  | O => []
  | S n' => take R flat :: rows_of n' R (drop R flat)
  end.

Definition unflatten {A} (R : nat) (flat : list A) : list (list A) :=
  rows_of (length flat / R) R flat.

(** ** Points of the unit square and cell counts (specification side) *)

(** A coordinate in [[0, 1)]: a number, at least 0 and below 1. *)
Definition in_unit (a : number) : bool :=
  is_number a && leb (of_Z 0) a && ltb a (of_Z 1).

Definition unit_point (d : SessionData) : Prop :=
  in_unit (x d) = true /\ in_unit (y d) = true.

(** The cell holding the count [c]. *)
Definition count (c : nat) : jsval := VNum (of_Z (Z.of_nat c)).

(** The grid holding the counts [counts]. *)
Definition grid_of (counts : list (list nat)) : list (list jsval) :=
  fmap (M := list) (fmap (M := list) count) counts.

(** The sum of all the counts. *)
Definition total (counts : list (list nat)) : nat :=
  sum_list_with sum_list counts.

(** A grid of counts with 100 rows of 100 cells. *)
Definition square (counts : list (list nat)) : Prop :=
  length counts = 100%nat /\ Forall (fun row => length row = 100%nat) counts.

(** A point of the local dataset. *)
Definition sample (a b : number) : SessionData :=
  {| x := a; y := b; scope := LOCAL |}.

(** ** The keys computed for a point, and tallies (specification side) *)

(** The two indices that the callback of [getGrid] computes for a point. *)
Definition xIndex (d : SessionData) : number := Math_floor (mul (x d) (of_Z 100)).
Definition yIndex (d : SessionData) : number := Math_floor (mul (y d) (of_Z 100)).

(** The number of points whose row is [i] and whose column is [j]. *)
Definition tally (i j : nat) (data : list SessionData) : nat :=
  length (filter (fun d => array_index (yIndex d) = Some i
                           /\ array_index (xIndex d) = Some j) data).

(** The count in row [i], column [j]. *)
Definition cell (counts : list (list nat)) (i j : nat) : option nat :=
  counts !! i ≫= (.!! j).

(** ** Loading the data *)

Definition setLocalData (v : option (list SessionData)) (s : State) : State :=
  {| localData := v; globalData := globalData s;
     displayPoints := displayPoints s;
     opacity := opacity s; bandwidth := bandwidth s; skew := skew s |}.

Definition setGlobalData (v : option (list SessionData)) (s : State) : State :=
  {| localData := localData s; globalData := v;
     displayPoints := displayPoints s;
     opacity := opacity s; bandwidth := bandwidth s; skew := skew s |}.

(** How a request made with [d3.json] ends: the promise resolves, with
    the parsed document or with [undefined], or it rejects. *)
Inductive Fetched :=
  | Resolved (v : option (list SessionData))
  | Rejected.

(** [fetchData], given how the request for the local data and the request
    for the global data end (the second is not made when the first
    rejects).  The boolean tells whether [console.error] was called. *)
Definition fetchData (l g : Fetched) (s : State) : State * bool :=
  match l with
  | Resolved l =>
      match g with
      | Resolved g =>
          match l, g with
          | Some _, Some _ => (setGlobalData g (setLocalData l s), false)
          | _, _ => (s, false)
          end
      | Rejected => (s, true)
      end
  | Rejected => (s, true)
  end.

(** ** The mounted component *)

(** What can happen to the mounted component; each event is handled in
    the state left by the previous one. *)
Inductive Event :=
  | DataFetched (l g : Fetched)
  | PointsToggled
  | OpacityChanged (event : ChangeEvent)
  | BandwidthChanged (event : ChangeEvent)
  | SkewChanged (event : ChangeEvent).

Definition handle (s : State) (ev : Event) : State :=
  match ev with
  | DataFetched l g => fst (fetchData l g s)
  | PointsToggled => togglePoints s
  | OpacityChanged event => handleOpacityChange event s
  | BandwidthChanged event => handleBandwidthChange event s
  | SkewChanged event => handleSkewChange event s
  end.

Definition run (events : list Event) : State := fold_left handle events initial.

(** The latest value that the events give to a parameter, [a] when they
    give none (specification side). *)
Definition latest {A} (pick : Event -> option A) (events : list Event) (a : A) : A :=
  default a (last (omap pick events)).

Definition opacityOf (ev : Event) : option number :=
  match ev with
  | OpacityChanged event => Some (parseFloat (target_value event))
  | _ => None
  end.

Definition bandwidthOf (ev : Event) : option number :=
  match ev with
  | BandwidthChanged event => Some (parseFloat (target_value event))
  | _ => None
  end.

Definition skewOf (ev : Event) : option number :=
  match ev with
  | SkewChanged event => Some (parseFloat (target_value event))
  | _ => None
  end.

(** How many times the box was toggled. *)
Definition toggles (events : list Event) : nat :=
  sum_list_with (fun ev => match ev with PointsToggled => 1 | _ => 0 end)%nat
                events.

(** * The model at work *)

(** Binary64 arithmetic, not arithmetic on decimals. *)
Example add_01_02 :
  add (decimal 1 (-1)) (decimal 2 (-1)) <> decimal 3 (-1)
  /\ Number_toString (add (decimal 1 (-1)) (decimal 2 (-1)))
     = "0.30000000000000004".
Proof. vm_compute. split; [discriminate|reflexivity]. Qed.

(** [0.29 * 100] is [28.999999999999996], so the point falls in column
    28. *)
Example floor_029 :
  Number_toString (mul (decimal 29 (-2)) (of_Z 100)) = "28.999999999999996"
  /\ Math_floor (mul (decimal 29 (-2)) (of_Z 100)) = of_Z 28.
Proof. vm_compute. split; reflexivity. Qed.

Example floor_negative :
  Math_floor (neg (decimal 5 (-1))) = of_Z (-1)
  /\ Math_floor (neg (decimal 25 (-1))) = of_Z (-3)
  /\ Math_floor (S754_zero true) = S754_zero true
  /\ array_index (S754_zero true) = Some 0%nat
  /\ array_index (of_Z (-1)) = None
  /\ array_index NaN = None.
Proof. vm_compute. repeat split; reflexivity. Qed.

Example parseFloat_values :
  parseFloat "0.5" = decimal 5 (-1)
  /\ parseFloat "20" = of_Z 20
  /\ parseFloat "-0.25" = neg (decimal 25 (-2))
  /\ parseFloat " 1e3px" = of_Z 1000
  /\ parseFloat ".5" = decimal 5 (-1)
  /\ parseFloat "" = NaN
  /\ parseFloat "abc" = NaN.
Proof. vm_compute. repeat split; reflexivity. Qed.

Example Number_toString_values :
  Number_toString <$> [of_Z 255; decimal 15 (-1); neg (decimal 25 (-2));
                       decimal 1 21; decimal 1 (-7); decimal 123456 (-3)]
  = ["255"; "1.5"; "-0.25"; "1e+21"; "1e-7"; "123.456"].
Proof. vm_compute. reflexivity. Qed.

(** One point at [(0.95, 0.95)]: cell [(95, 95)] holds 1, every other
    cell 0. *)
Example getGrid_one_point :
  getGrid [sample (decimal 95 (-2)) (decimal 95 (-2))]
  = Ok (<[95%nat := <[95%nat := count 1]> (replicate 100 (count 0))]>
          (replicate 100 (replicate 100 (count 0)))).
Proof. vm_compute. reflexivity. Qed.

(** * Rounding *)

Local Ltac pow_pos := apply Z.pow_pos_nonneg; lia.

Lemma fexp_eq k : fexp prec emax k = Z.max (k - 53) (-1074).
Proof. reflexivity. Qed.

Lemma iter_pos_iter {A} (f : A -> A) p a :
  SpecFloat.iter_pos f p a = Nat.iter (Pos.to_nat p) f a.
Proof.
  revert a; induction p as [p IH|p IH|]; intros a; cbn [SpecFloat.iter_pos].
  - rewrite Pos2Nat.inj_xI, !IH.
    replace (S (2 * Pos.to_nat p))%nat with (Pos.to_nat p + (Pos.to_nat p + 1))%nat by lia.
    rewrite !Nat.iter_add. reflexivity.
  - rewrite Pos2Nat.inj_xO, !IH.
    replace (2 * Pos.to_nat p)%nat with (Pos.to_nat p + Pos.to_nat p)%nat by lia.
    rewrite Nat.iter_add. reflexivity.
  - reflexivity.
Qed.

Lemma shr_1_spec m r s :
  0 <= m ->
  shr_1 {| shr_m := m; shr_r := r; shr_s := s |}
  = {| shr_m := m / 2; shr_r := Z.odd m; shr_s := r || s |}.
Proof.
  intros Hm. destruct m as [|p|p]; [reflexivity| |lia].
  destruct p as [p|p|]; simpl shr_1; f_equal.
  - rewrite <- Z.div2_div. reflexivity.
  - rewrite <- Z.div2_div. reflexivity.
Qed.

(** Shifting right by [n] bits divides the mantissa by [2 ^ n]. *)
Lemma shr_iter_m n m r s :
  0 <= m ->
  shr_m (Nat.iter n shr_1 {| shr_m := m; shr_r := r; shr_s := s |})
  = m / 2 ^ Z.of_nat n.
Proof.
  intros Hm. induction n as [|n IH].
  - simpl. now rewrite Z.div_1_r.
  - rewrite Nat2Z.inj_succ, Z.pow_succ_r by lia.
    simpl Nat.iter.
    destruct (Nat.iter n shr_1 _) as [m' r' s'] eqn:E. simpl in IH. subst m'.
    rewrite shr_1_spec by (apply Z.div_pos; lia). simpl.
    rewrite Z.div_div by lia. f_equal. lia.
Qed.

(** When the bits shifted out are all zero, nothing is recorded. *)
Lemma shr_iter_exact n m :
  0 <= m -> m mod 2 ^ Z.of_nat n = 0 ->
  Nat.iter n shr_1 {| shr_m := m; shr_r := false; shr_s := false |}
  = {| shr_m := m / 2 ^ Z.of_nat n; shr_r := false; shr_s := false |}.
Proof.
  intros Hm. induction n as [|n IH]; intros Hd.
  - simpl. now rewrite Z.div_1_r.
  - rewrite Nat2Z.inj_succ, Z.pow_succ_r in * by lia.
    assert (H2 : 0 < 2 ^ Z.of_nat n) by pow_pos.
    apply Z.mod_divide in Hd; [|lia]. destruct Hd as [q Hq].
    assert (Hm' : m = (2 * q) * 2 ^ Z.of_nat n) by lia.
    simpl Nat.iter. rewrite IH.
    + rewrite shr_1_spec by (apply Z.div_pos; lia).
      f_equal.
      * rewrite Z.div_div by lia. f_equal. lia.
      * rewrite Hm', Z.div_mul by lia. rewrite Z.odd_mul. reflexivity.
    + rewrite Hm'. apply Z.mod_mul. lia.
Qed.

Lemma shr_spec m e n :
  0 <= m ->
  exists r s,
    shr {| shr_m := m; shr_r := false; shr_s := false |} e n
    = ({| shr_m := m / 2 ^ Z.max 0 n; shr_r := r; shr_s := s |}, e + Z.max 0 n).
Proof.
  intros Hm. destruct n as [|p|p]; simpl shr.
  - exists false, false. rewrite Z.div_1_r, Z.add_0_r. reflexivity.
  - rewrite iter_pos_iter.
    pose proof (shr_iter_m (Pos.to_nat p) m false false Hm) as H.
    destruct (Nat.iter _ _ _) as [m' r' s']. simpl in H. subst m'.
    exists r', s'. rewrite positive_nat_Z. 
    replace (Z.max 0 (Z.pos p)) with (Z.pos p) by lia. reflexivity.
  - exists false, false.
    replace (Z.max 0 (Z.neg p)) with 0 by lia.
    rewrite Z.div_1_r, Z.add_0_r. reflexivity.
Qed.

Lemma shr_exact m e n :
  0 <= m -> 0 <= n -> m mod 2 ^ n = 0 ->
  shr {| shr_m := m; shr_r := false; shr_s := false |} e n
  = ({| shr_m := m / 2 ^ n; shr_r := false; shr_s := false |}, e + n).
Proof.
  intros Hm Hn Hd. destruct n as [|p|p]; simpl shr; [| |lia].
  - rewrite Z.div_1_r, Z.add_0_r. reflexivity.
  - rewrite iter_pos_iter, shr_iter_exact; rewrite ?positive_nat_Z; auto.
Qed.

Lemma round_nearest_even_bounds m l :
  m <= round_nearest_even m l <= m + 1.
Proof.
  destruct l as [|[]]; simpl; try lia. destruct (Z.even m); lia.
Qed.

(** ** Binary digits *)

Lemma digits2_pos_bounds p :
  2 ^ (Zpos (digits2_pos p) - 1) <= Zpos p < 2 ^ Zpos (digits2_pos p).
Proof.
  induction p as [p IH|p IH|]; simpl digits2_pos;
    rewrite ?Pos2Z.inj_succ.
  - replace (Z.succ (Z.pos (digits2_pos p)) - 1) with (Z.succ (Z.pos (digits2_pos p) - 1)) by lia.
    rewrite !Z.pow_succ_r by lia. lia.
  - replace (Z.succ (Z.pos (digits2_pos p)) - 1) with (Z.succ (Z.pos (digits2_pos p) - 1)) by lia.
    rewrite !Z.pow_succ_r by lia. lia.
  - simpl. lia.
Qed.

Lemma Zdigits2_bounds m :
  0 < m -> 2 ^ (Zdigits2 m - 1) <= m < 2 ^ Zdigits2 m.
Proof. destruct m; try lia. intros _. apply digits2_pos_bounds. Qed.

Lemma Zdigits2_pos m : 0 < m -> 0 < Zdigits2 m.
Proof. destruct m; simpl; lia. Qed.

Lemma Zdigits2_unique m k :
  2 ^ (k - 1) <= m < 2 ^ k -> 0 < k -> Zdigits2 m = k.
Proof.
  intros [Hl Hu] Hk.
  assert (Hm : 0 < m).
  { pose proof (Z.pow_pos_nonneg 2 (k - 1)). lia. }
  destruct (Zdigits2_bounds m Hm) as [Hl' Hu'].
  pose proof (Zdigits2_pos m Hm) as Hd.
  destruct (Z.lt_trichotomy (Zdigits2 m) k) as [H|[H|H]]; [|assumption|].
  - assert (2 ^ Zdigits2 m <= 2 ^ (k - 1)) by (apply Z.pow_le_mono_r; lia). lia.
  - assert (2 ^ k <= 2 ^ (Zdigits2 m - 1)) by (apply Z.pow_le_mono_r; lia). lia.
Qed.

Lemma Zdigits2_le m k : 0 <= m < 2 ^ k -> 0 <= k -> Zdigits2 m <= k.
Proof.
  intros [Hl Hu] Hk.
  destruct (Z.eq_dec m 0) as [->|Hne]; [simpl; lia|].
  assert (Hm : 0 < m) by lia.
  destruct (Zdigits2_bounds m Hm) as [Hl' _].
  destruct (Z.le_gt_cases (Zdigits2 m) k) as [H|H]; [assumption|].
  assert (2 ^ k <= 2 ^ (Zdigits2 m - 1)) by (apply Z.pow_le_mono_r; lia). lia.
Qed.

Lemma Zdigits2_shift m k :
  0 < m -> 0 <= k -> Zdigits2 (m * 2 ^ k) = Zdigits2 m + k.
Proof.
  intros Hm Hk.
  destruct (Zdigits2_bounds m Hm) as [Hl Hu].
  pose proof (Zdigits2_pos m Hm) as Hd.
  assert (H2 : 0 < 2 ^ k) by pow_pos.
  apply Zdigits2_unique; [|lia].
  replace (Zdigits2 m + k - 1) with ((Zdigits2 m - 1) + k) by lia.
  rewrite !Z.pow_add_r by lia. nia.
Qed.


(** ** Rounding to nearest *)

(** The result of rounding [M * 2 ^ ex]: never NaN; when finite, its
    exponent is the target exponent [e'] or one more, and its value is at
    most one unit in the last place above the truncated one. *)
Lemma binary_round_aux_spec s (M : positive) ex :
  let e' := Z.max ex (fexp prec emax (Zdigits2 (Zpos M) + ex)) in
  let m' := Zpos M / 2 ^ (e' - ex) in
  m' < 2 ^ 53 /\
  match binary_round_aux prec emax s (Zpos M) ex loc_Exact with
  | S754_zero s' => s' = s
  | S754_infinity s' => s' = s /\ emax - prec < e' + 1
  | S754_nan => False
  | S754_finite s' m e =>
      s' = s /\ e' <= e <= e' + 1 /\ Zpos m * 2 ^ (e - e') <= m' + 1
  end.
Proof.
  intros e' m'.
  pose proof (Zdigits2_bounds (Zpos M) eq_refl) as [_ HMu].
  pose proof (Zdigits2_pos (Zpos M) eq_refl) as Hd.
  set (d := Zdigits2 (Zpos M)) in *.
  assert (He' : e' = Z.max ex (Z.max (d + ex - 53) (-1074))) by reflexivity.
  assert (Hn : e' - ex = Z.max 0 (fexp prec emax (d + ex) - ex)).
  { rewrite fexp_eq. lia. }
  assert (Hm'0 : 0 <= m').
  { apply Z.div_pos; [lia|]. pow_pos. }
  assert (Hm' : m' < 2 ^ 53).
  { apply Z.div_lt_upper_bound; [pow_pos|].
    rewrite <- Z.pow_add_r by lia.
    eapply Z.lt_le_trans; [exact HMu|]. apply Z.pow_le_mono_r; lia. }
  split; [exact Hm'|].
  unfold binary_round_aux, shr_fexp. simpl shr_record_of_loc. fold d.
  destruct (shr_spec (Zpos M) ex (fexp prec emax (d + ex) - ex)) as (r1 & s1 & E1);
    [lia|].
  rewrite E1, <- Hn. fold m'. simpl shr_m.
  replace (ex + (e' - ex)) with e' by lia.
  set (mr := round_nearest_even m' _).
  pose proof (round_nearest_even_bounds m'
    (loc_of_shr_record {| shr_m := m'; shr_r := r1; shr_s := s1 |})) as Hmr.
  fold mr in Hmr.
  destruct (shr_spec mr e' (fexp prec emax (Zdigits2 mr + e') - e')) as (r2 & s2 & E2);
    [lia|].
  rewrite E2. simpl shr_m.
  set (k := Z.max 0 (fexp prec emax (Zdigits2 mr + e') - e')) in *.
  assert (Hk : 0 <= k <= 1).
  { subst k. rewrite fexp_eq.
    assert (Zdigits2 mr <= 54) by (apply Zdigits2_le; lia). lia. }
  assert (Hq : 0 <= mr / 2 ^ k).
  { apply Z.div_pos; [lia|]. pow_pos. }
  destruct (mr / 2 ^ k) as [|q|q] eqn:Eq; [reflexivity| |lia].
  destruct (Z.leb_spec (e' + k) (emax - prec)) as [Hle|Hgt].
  - split; [reflexivity|]. split; [lia|].
    replace (e' + k - e') with k by lia.
    rewrite <- Eq.
    assert (mr / 2 ^ k * 2 ^ k <= mr); [|lia].
    rewrite Z.mul_comm. apply Z.mul_div_le. apply Z.pow_pos_nonneg; lia.
  - split; [reflexivity|lia].
Qed.

(** A value that needs no rounding is returned as it is. *)
Lemma binary_round_aux_exact s (M : positive) ex :
  let e' := fexp prec emax (Zdigits2 (Zpos M) + ex) in
  ex <= e' -> Zpos M mod 2 ^ (e' - ex) = 0 -> e' <= emax - prec ->
  binary_round_aux prec emax s (Zpos M) ex loc_Exact
  = S754_finite s (Z.to_pos (Zpos M / 2 ^ (e' - ex))) e'.
Proof.
  intros e' Hle Hmod Hmax.
  pose proof (Zdigits2_bounds (Zpos M) eq_refl) as [HMl HMu].
  pose proof (Zdigits2_pos (Zpos M) eq_refl) as Hd.
  set (d := Zdigits2 (Zpos M)) in *.
  set (n := e' - ex) in *.
  assert (Hn : 0 <= n) by lia.
  assert (H2 : 0 < 2 ^ n) by pow_pos.
  apply Z.mod_divide in Hmod; [|lia]. destruct Hmod as [q Hq].
  assert (Hq0 : 0 < q) by nia.
  assert (Hdiv : Zpos M / 2 ^ n = q) by (rewrite Hq; apply Z.div_mul; lia).
  assert (Hdq : Zdigits2 q = d - n).
  { pose proof (Zdigits2_shift q n Hq0 Hn) as Hs. rewrite <- Hq in Hs.
    fold d in Hs. lia. }
  unfold binary_round_aux, shr_fexp. simpl shr_record_of_loc. fold d. fold e'. fold n.
  rewrite shr_exact; [|lia|lia|rewrite Hq; apply Z.mod_mul; lia].
  simpl shr_m. simpl loc_of_shr_record. simpl round_nearest_even.
  rewrite Hdiv, Hdq.
  replace (d - n + (ex + n)) with (d + ex) by lia. fold e'.
  replace (e' - (ex + n)) with 0 by lia.
  simpl shr. simpl shr_m.
  destruct q as [|q|q]; try lia.
  replace (ex + n) with e' by lia.
  destruct (Z.leb_spec e' (emax - prec)); [reflexivity|lia].
Qed.

Lemma iter_xO p k : Zpos (Pos.iter xO p k) = Zpos p * 2 ^ Zpos k.
Proof.
  induction k as [|k IH] using Pos.peano_ind.
  - simpl. lia.
  - rewrite Pos.iter_succ, Pos2Z.inj_succ, Z.pow_succ_r by lia.
    rewrite Pos2Z.inj_xO, IH. lia.
Qed.

Lemma shl_align_fst m e e' :
  Zpos (fst (shl_align m e e')) = Zpos m * 2 ^ Z.max 0 (e - e').
Proof.
  unfold shl_align. destruct (e' - e) as [|k|k] eqn:E; simpl fst.
  - replace (Z.max 0 (e - e')) with 0 by lia. lia.
  - replace (Z.max 0 (e - e')) with 0 by lia. lia.
  - rewrite iter_xO. f_equal. f_equal. lia.
Qed.

Lemma shl_align_snd m e e' : snd (shl_align m e e') = Z.min e e'.
Proof.
  unfold shl_align. destruct (e' - e) as [|k|k] eqn:E; simpl snd; lia.
Qed.

(** Rounding a value that has a canonical representation [m * 2 ^ e]
    gives that representation. *)
Lemma binary_round_canonical s (p : positive) ex (m : positive) e :
  fexp prec emax (Zdigits2 (Zpos m) + e) = e -> e <= emax - prec ->
  Zpos p * 2 ^ Z.max 0 (ex - e) = Zpos m * 2 ^ Z.max 0 (e - ex) ->
  binary_round prec emax s p ex = S754_finite s m e.
Proof.
  intros Hcan Hmax Hval.
  pose proof (Zdigits2_pos (Zpos m) eq_refl) as Hdm.
  pose proof (Zdigits2_pos (Zpos p) eq_refl) as Hdp.
  assert (Hmag : Zdigits2 (Zpos p) + ex = Zdigits2 (Zpos m) + e).
  { pose proof (Zdigits2_shift (Zpos p) (Z.max 0 (ex - e)) eq_refl ltac:(lia)) as H1.
    pose proof (Zdigits2_shift (Zpos m) (Z.max 0 (e - ex)) eq_refl ltac:(lia)) as H2.
    rewrite Hval in H1. lia. }
  unfold binary_round.
  change (Z.pos (digits2_pos p)) with (Zdigits2 (Zpos p)).
  rewrite Hmag, Hcan.
  destruct (shl_align p ex e) as [mz ez] eqn:E.
  pose proof (shl_align_fst p ex e) as Hf. pose proof (shl_align_snd p ex e) as Hs.
  rewrite E in Hf, Hs. simpl in Hf, Hs. subst ez.
  assert (Hdz : Zdigits2 (Zpos mz) + Z.min ex e = Zdigits2 (Zpos m) + e).
  { rewrite Hf, Zdigits2_shift by lia. lia. }
  rewrite Hval in Hf.
  replace (e - Z.min ex e) with (Z.max 0 (e - ex)) in * by lia.
  assert (H2 : 2 ^ Z.max 0 (e - ex) <> 0) by (apply Z.pow_nonzero; lia).
  rewrite binary_round_aux_exact; rewrite Hdz, Hcan; try lia.
  - replace (e - Z.min ex e) with (Z.max 0 (e - ex)) by lia.
    rewrite Hf, Z.div_mul by assumption. reflexivity.
  - replace (e - Z.min ex e) with (Z.max 0 (e - ex)) by lia.
    rewrite Hf. apply Z.mod_mul. assumption.
Qed.

(** ** Integers as numbers *)

(** A positive integer below [2 ^ 53] is represented exactly, with a
    mantissa of 53 bits. *)
Lemma of_Z_pos c :
  0 < c < 2 ^ 53 ->
  of_Z c = S754_finite false (Z.to_pos (c * 2 ^ (53 - Zdigits2 c)))
                             (Zdigits2 c - 53).
Proof.
  intros [Hc0 Hc].
  pose proof (Zdigits2_pos c Hc0) as Hd.
  assert (Hd' : Zdigits2 c <= 53) by (apply Zdigits2_le; lia).
  assert (Hm : 0 < c * 2 ^ (53 - Zdigits2 c)).
  { apply Z.mul_pos_pos; [lia|]. pow_pos. }
  destruct c as [|p|p]; try lia.
  change (of_Z (Z.pos p)) with (binary_round prec emax false p 0).
  apply binary_round_canonical.
  - rewrite Z2Pos.id by lia. rewrite Zdigits2_shift by lia. rewrite fexp_eq. lia.
  - unfold emax, prec. lia.
  - rewrite Z2Pos.id by lia.
    replace (Z.max 0 (Zdigits2 (Z.pos p) - 53 - 0)) with 0 by lia.
    replace (Z.max 0 (0 - (Zdigits2 (Z.pos p) - 53))) with (53 - Zdigits2 (Z.pos p)) by lia.
    lia.
Qed.

Lemma of_Z_1 : of_Z 1 = S754_finite false 4503599627370496 (-52).
Proof. reflexivity. Qed.

(** Adding one to a count is exact below [2 ^ 53]. *)
Lemma add_of_Z_1 c :
  0 <= c -> c + 1 < 2 ^ 53 -> add (of_Z c) (of_Z 1) = of_Z (c + 1).
Proof.
  intros Hc0 Hc.
  destruct (Z.eq_dec c 0) as [->|Hne]; [reflexivity|].
  rewrite (of_Z_pos c), (of_Z_pos (c + 1)), of_Z_1 by lia.
  pose proof (Zdigits2_pos c ltac:(lia)) as Hd.
  assert (Hd' : Zdigits2 c <= 53) by (apply Zdigits2_le; lia).
  pose proof (Zdigits2_pos (c + 1) ltac:(lia)) as Hd1.
  assert (Hd1' : Zdigits2 (c + 1) <= 53) by (apply Zdigits2_le; lia).
  set (d := Zdigits2 c) in *. set (d1 := Zdigits2 (c + 1)) in *.
  assert (Hm : 0 < c * 2 ^ (53 - d)).
  { apply Z.mul_pos_pos; [lia|]. pow_pos. }
  assert (Hm1 : 0 < (c + 1) * 2 ^ (53 - d1)).
  { apply Z.mul_pos_pos; [lia|]. pow_pos. }
  unfold add, SFadd.
  replace (Z.min (d - 53) (-52)) with (-52) by lia.
  unfold cond_Zopp. rewrite !shl_align_fst, Z2Pos.id by lia.
  replace (Z.max 0 (d - 53 - -52)) with (d - 1) by lia.
  replace (Z.max 0 (-52 - -52)) with 0 by lia.
  assert (Hsum : c * 2 ^ (53 - d) * 2 ^ (d - 1) + 4503599627370496 * 2 ^ 0
                 = (c + 1) * 2 ^ 52).
  { rewrite <- Z.mul_assoc, <- Z.pow_add_r by lia.
    replace (53 - d + (d - 1)) with 52 by lia. lia. }
  rewrite Hsum.
  assert (Hpos : 0 < (c + 1) * 2 ^ 52) by lia.
  destruct ((c + 1) * 2 ^ 52) as [|q|q] eqn:Eq; try lia.
  unfold binary_normalize.
  apply binary_round_canonical.
  - rewrite Z2Pos.id by lia. fold d1 in Hm1. rewrite Zdigits2_shift by lia.
    rewrite fexp_eq. lia.
  - unfold emax, prec. lia.
  - rewrite Z2Pos.id by lia. 
    replace (Z.max 0 (-52 - (d1 - 53))) with 0 by lia.
    replace (Z.max 0 (d1 - 53 - -52)) with (d1 - 1) by lia.
    rewrite <- Eq, Z.mul_1_r.
    rewrite <- (Z.mul_assoc (c + 1)), <- Z.pow_add_r by lia.
    replace (53 - d1 + (d1 - 1)) with 52 by lia. reflexivity.
Qed.

Lemma integer_value_of_Z c :
  0 <= c < 2 ^ 53 -> integer_value (of_Z c) = Some c.
Proof.
  intros [Hc0 Hc].
  destruct (Z.eq_dec c 0) as [->|Hne]; [reflexivity|].
  rewrite of_Z_pos by lia.
  pose proof (Zdigits2_pos c ltac:(lia)) as Hd.
  assert (Hd' : Zdigits2 c <= 53) by (apply Zdigits2_le; lia).
  assert (Hm : 0 < c * 2 ^ (53 - Zdigits2 c)).
  { apply Z.mul_pos_pos; [lia|]. pow_pos. }
  unfold integer_value.
  destruct (Zdigits2 c - 53) as [|k|k] eqn:E; try lia.
  - replace (53 - Zdigits2 c) with 0 by lia.
    rewrite Z.shiftl_0_r, Z2Pos.id; simpl cond_Zopp; f_equal; lia.
  - replace (53 - Zdigits2 c) with (Zpos k) in * by lia.
    rewrite Z2Pos.id by lia.
    rewrite Z.land_ones, Z.mod_mul by (try apply Z.pow_nonzero; lia).
    simpl Z.eqb. cbv iota. simpl cond_Zopp.
    rewrite Z.shiftr_div_pow2, Z.div_mul by (try apply Z.pow_nonzero; lia).
    reflexivity.
Qed.

Lemma array_index_of_Z c :
  0 <= c < 2 ^ 32 - 1 -> array_index (of_Z c) = Some (Z.to_nat c).
Proof.
  intros Hc. unfold array_index. rewrite integer_value_of_Z by lia.
  destruct (Z.leb_spec 0 c); [|lia].
  destruct (Z.ltb_spec c (2 ^ 32 - 1)); [|lia]. reflexivity.
Qed.

(** ** Coordinates in the unit interval *)

Lemma ltb_finite_1 m e :
  ltb (S754_finite false m e) (of_Z 1)
  = match e ?= -52 with
    | Lt => true
    | Eq => Zpos m <? 4503599627370496
    | Gt => false
    end.
Proof.
  unfold ltb, SFltb. rewrite of_Z_1. unfold SFcompare.
  destruct (e ?= -52); [|reflexivity|reflexivity].
  rewrite Pos.compare_cont_spec, Pos2Z.inj_compare.
  unfold Pos.switch_Eq, Z.ltb.
  destruct (Z.pos m ?= 4503599627370496); reflexivity.
Qed.

Lemma leb_0_finite s m e : leb (of_Z 0) (S754_finite s m e) = negb s.
Proof. destruct s; reflexivity. Qed.

Lemma in_unit_cases a :
  in_unit a = true ->
  (exists s, a = S754_zero s) \/
  exists m e, a = S754_finite false m e /\ -1074 <= e <= -53 /\
              Zpos m < 2 ^ 53 /\ (e = -53 -> 2 ^ 52 <= Zpos m).
Proof.
  unfold in_unit. rewrite !andb_true_iff. intros [[Hv Hl] Hu].
  destruct a as [s|s| |s m e]; [left; eauto| | |].
  - destruct s; discriminate.
  - discriminate.
  - right. exists m, e.
    rewrite leb_0_finite in Hl. destruct s; [discriminate|]. clear Hl.
    rewrite ltb_finite_1 in Hu.
    unfold is_number, valid_binary, bounded, canonical_mantissa in Hv.
    apply andb_true_iff in Hv. destruct Hv as [Hcan _].
    apply Z.eqb_eq in Hcan. rewrite fexp_eq in Hcan.
    change (Z.pos (digits2_pos m)) with (Zdigits2 (Zpos m)) in Hcan.
    pose proof (Zdigits2_bounds (Zpos m) eq_refl) as [Hml Hmu].
    pose proof (Zdigits2_pos (Zpos m) eq_refl) as Hd.
    set (d := Zdigits2 (Zpos m)) in *.
    assert (Hd53 : d <= 53) by lia.
    assert (Hm53 : Zpos m < 2 ^ 53).
    { eapply Z.lt_le_trans; [exact Hmu|]. apply Z.pow_le_mono_r; lia. }
    assert (He : e <= -53).
    { destruct (Z.compare_spec e (-52)) as [E|E|E]; [|lia|discriminate].
      subst e. assert (d = 53) by lia.
      apply Z.ltb_lt in Hu.
      replace (d - 1) with 52 in Hml by lia.
      change (2 ^ 52) with 4503599627370496 in Hml. lia. }
    repeat split; try lia.
    intros ->. assert (d = 53) by lia. replace (d - 1) with 52 in Hml by lia. lia.
Qed.

Lemma of_Z_100 : of_Z 100 = S754_finite false 7036874417766400 (-46).
Proof. reflexivity. Qed.

(** The floor of a non-negative number of small exponent, as an array
    index. *)
Lemma floor_index (m : positive) e (b : Z) :
  e < 0 -> 0 < b < 2 ^ 32 -> Zpos m < b * 2 ^ (- e) ->
  exists j, array_index (Math_floor (S754_finite false m e)) = Some j
            /\ (Z.of_nat j < b).
Proof.
  intros He Hb Hm.
  destruct e as [|k|k]; try lia.
  unfold Math_floor. simpl cond_Zopp.
  rewrite Z.shiftr_div_pow2 by lia.
  replace (- Z.neg k) with (Zpos k) in Hm by lia.
  assert (H2 : 0 < 2 ^ Zpos k) by pow_pos.
  assert (Hz : 0 <= Zpos m / 2 ^ Zpos k < b).
  { split; [apply Z.div_pos; lia|]. apply Z.div_lt_upper_bound; lia. }
  destruct (Zpos m / 2 ^ Zpos k) as [|z|z] eqn:Ez; try lia.
  - exists 0%nat. split; [reflexivity|lia].
  - exists (Z.to_nat (Zpos z)). rewrite array_index_of_Z by lia.
    split; [reflexivity|lia].
Qed.

(** The product of [m * 2 ^ e < 1] and 100, before rounding: it is
    truncated at an exponent [e'] of at most -46, and even one unit in the
    last place above the truncation [m'] stays below 100.  The largest
    number below 1, of mantissa [2 ^ 53 - 1], is left to computation. *)
Lemma product_below_100 (m : positive) e e' m' :
  -1074 <= e <= -53 -> Zpos m < 2 ^ 53 ->
  (e = -53 -> Zpos m <= 2 ^ 53 - 2) ->
  e' = Z.max (e + -46)
         (fexp prec emax (Zdigits2 (Zpos (m * 7036874417766400)) + (e + -46))) ->
  m' = Zpos (m * 7036874417766400) / 2 ^ (e' - (e + -46)) ->
  m' < 2 ^ 53 ->
  e' <= -46 /\ m' + 1 < 100 * 2 ^ (- e').
Proof.
  intros He Hm Hmax He' Hm' Hlt.
  rewrite Pos2Z.inj_mul in *. rewrite fexp_eq in He'.
  change (Zpos 7036874417766400) with (100 * 2 ^ 46) in *.
  set (M := Zpos m * (100 * 2 ^ 46)) in *.
  assert (HM : 0 < M) by (unfold M; lia).
  pose proof (Zdigits2_pos M HM) as Hd0.
  assert (Hd : Zdigits2 M <= 106).
  { apply Zdigits2_le; [|lia]. change (2 ^ 106) with (2 ^ 53 * 2 ^ 53).
    unfold M. nia. }
  assert (H46 : e' <= -46) by lia.
  split; [exact H46|].
  destruct (Z.le_gt_cases e' (-47)) as [Hlo|Hhi].
  - assert (2 ^ 47 <= 2 ^ (- e')) by (apply Z.pow_le_mono_r; lia).
    change (2 ^ 53) with (64 * 2 ^ 47) in Hlt. lia.
  - assert (e' = -46) as Ee' by lia.
    assert (e = -53) as E53 by lia.
    assert (Hle : m' <= (2 ^ 53 - 2) * (100 * 2 ^ 46) / 2 ^ 53).
    { rewrite Hm', Ee', E53. change (-46 - (-53 + -46)) with 53.
      apply Z.div_le_mono; [reflexivity|]. specialize (Hmax E53). unfold M. nia. }
    change ((2 ^ 53 - 2) * (100 * 2 ^ 46) / 2 ^ 53) with (100 * 2 ^ 46 - 2) in Hle.
    rewrite Ee'. change (- -46) with 46. lia.
Qed.

(** The index computed for a coordinate of [[0, 1)] is one of
    [0, ..., 99]: the product with 100 rounds to a number below 100. *)
Lemma unit_index a :
  in_unit a = true ->
  exists j, array_index (Math_floor (mul a (of_Z 100))) = Some j
            /\ (j < 100)%nat.
Proof.
  intros Ha.
  destruct (in_unit_cases a Ha) as [[s ->]|(m & e & -> & He & Hm & Hn)].
  { exists 0%nat. split; [destruct s; reflexivity|lia]. }
  destruct (Z.eq_dec (Zpos m) (2 ^ 53 - 1)) as [Emax|Emax];
    [destruct (Z.eq_dec e (-53)) as [E53|E53]|].
  { (* the largest number below 1 *)
    subst e. assert (m = 9007199254740991%positive) as -> by lia.
    exists 99%nat. split; [vm_compute; reflexivity|lia]. }
  all: rewrite of_Z_100; unfold mul, SFmul; simpl xorb.
  all: destruct (binary_round_aux_spec false (m * 7036874417766400) (e + -46))
         as [Hm' Hr].
  all: assert (Hmax : e = -53 -> Zpos m <= 2 ^ 53 - 2) by lia.
  all: destruct (product_below_100 m e _ _ He Hm Hmax eq_refl eq_refl Hm')
         as [He' Hkey].
  all: set (e' := Z.max (e + -46) _) in *.
  all: destruct (binary_round_aux prec emax false _ _ loc_Exact)
         as [s'|s'| |s' m2 e2];
         [subst s'; exists 0%nat; split; [reflexivity|lia]
         |exfalso; change (emax - prec) with 971 in Hr; lia
         |contradiction
         |destruct Hr as (-> & He2 & Hm2)].
  all: destruct (floor_index m2 e2 100) as (j & Hj & Hlt);
         [lia|lia| |exists j; split; [exact Hj|lia]].
  all: assert (H2 : 0 < 2 ^ (e2 - e')) by pow_pos.
  all: apply (Z.mul_lt_mono_pos_r (2 ^ (e2 - e'))); [lia|].
  all: rewrite <- Z.mul_assoc, <- Z.pow_add_r by lia.
  all: replace (- e2 + (e2 - e')) with (- e') by lia.
  all: lia.
Qed.

(** * Counting *)

Lemma sum_list_with_insert {A} (f : A -> nat) (l : list A) i a b :
  l !! i = Some a ->
  (sum_list_with f (<[i := b]> l) + f a = sum_list_with f l + f b)%nat.
Proof.
  revert i. induction l as [|c l IH]; intros [|i] H; simplify_eq/=; try lia.
  specialize (IH i H). lia.
Qed.

Lemma sum_list_with_lookup {A} (f : A -> nat) (l : list A) i a :
  l !! i = Some a -> (f a <= sum_list_with f l)%nat.
Proof.
  intros H. apply sum_list_with_in. eapply list_elem_of_lookup_2. exact H.
Qed.

(** One more point in cell [(i, j)]. *)
Lemma visit_counts (counts : list (list nat)) d i j row c :
  array_index (Math_floor (mul (y d) (of_Z 100))) = Some i ->
  array_index (Math_floor (mul (x d) (of_Z 100))) = Some j ->
  counts !! i = Some row -> row !! j = Some c ->
  Z.of_nat c + 1 < 2 ^ 53 ->
  visit (grid_of counts) d = Ok (grid_of (<[i := <[j := S c]> row]> counts)).
Proof.
  intros Hi Hj Hrow Hc Hlt.
  assert (Hrow' : grid_of counts !! i = Some (count <$> row)).
  { unfold grid_of. rewrite list_lookup_fmap, Hrow. reflexivity. }
  assert (Hc' : (count <$> row) !! j = Some (count c)).
  { rewrite list_lookup_fmap, Hc. reflexivity. }
  unfold visit. rewrite Hi, Hrow'.
  unfold plus_assign, get, put. rewrite Hj, Hc', length_fmap.
  apply lookup_lt_Some in Hc.
  destruct (Nat.ltb_spec j (length row)); [|lia].
  unfold grid_of. rewrite !list_fmap_insert. do 3 f_equal.
  change (ToNumber (default VUndefined (Some (count c)))) with (of_Z (Z.of_nat c)).
  unfold count. rewrite add_of_Z_1 by lia. do 2 f_equal. lia.
Qed.

Lemma forEach_counts data : forall counts,
  Forall unit_point data -> square counts ->
  Z.of_nat (total counts) + Z.of_nat (length data) < 2 ^ 53 ->
  exists counts',
    forEach visit data (grid_of counts) = Ok (grid_of counts')
    /\ square counts'
    /\ total counts' = (total counts + length data)%nat.
Proof.
  induction data as [|d data IH]; intros counts Hdata [Hlen Hrows] Hbound.
  - exists counts. simpl. repeat split; auto.
  - apply Forall_cons in Hdata. destruct Hdata as [[Hx Hy] Hdata].
    destruct (unit_index _ Hy) as (i & Hi & Hi100).
    destruct (unit_index _ Hx) as (j & Hj & Hj100).
    destruct (lookup_lt_is_Some_2 counts i) as [row Hrow]; [lia|].
    assert (Hrl : length row = 100%nat).
    { eapply Forall_lookup_1 in Hrows; eauto. }
    destruct (lookup_lt_is_Some_2 row j) as [c Hc]; [lia|].
    assert (Hctot : (c <= total counts)%nat).
    { etransitivity; [apply (sum_list_with_lookup id row j c Hc)|].
      apply (sum_list_with_lookup sum_list counts i row Hrow). }
    simpl length in Hbound.
    set (counts1 := <[i := <[j := S c]> row]> counts).
    assert (Htot1 : total counts1 = S (total counts)).
    { pose proof (sum_list_with_insert sum_list counts i row (<[j := S c]> row) Hrow) as H1.
      pose proof (sum_list_with_insert id row j c (S c) Hc) as H2.
      unfold total, counts1. simpl in H2. lia. }
    destruct (IH counts1) as (counts' & Hrun & Hsq & Htot); auto.
    + split; [unfold counts1; rewrite length_insert; exact Hlen|].
      apply Forall_insert; [exact Hrows|]. rewrite length_insert. exact Hrl.
    + lia.
    + exists counts'. simpl forEach.
      rewrite (visit_counts counts d i j row c Hi Hj Hrow Hc) by lia.
      simpl bind. fold counts1. repeat split; try apply Hsq; auto.
      simpl length. lia.
Qed.

Lemma initial_grid :
  Array_from 100 (Array_from 100 (VNum (of_Z 0)))
  = grid_of (replicate 100 (replicate 100 0%nat)).
Proof.
  unfold Array_from, grid_of. rewrite fmap_replicate, fmap_replicate. reflexivity.
Qed.

Lemma getGrid_counts_aux data :
  Forall unit_point data -> Z.of_nat (length data) < 2 ^ 53 ->
  exists counts,
    getGrid data = Ok (grid_of counts) /\ square counts
    /\ total counts = length data.
Proof.
  intros Hdata Hlen.
  unfold getGrid. rewrite initial_grid.
  assert (Ht0 : total (replicate 100 (replicate 100 0%nat)) = 0%nat) by (vm_compute; reflexivity).
  destruct (forEach_counts data (replicate 100 (replicate 100 0%nat)))
    as (counts & Hrun & Hsq & Htot).
  - exact Hdata.
  - split; [apply length_replicate|].
    apply Forall_replicate. apply length_replicate.
  - rewrite Ht0. lia.
  - exists counts. rewrite Ht0 in Htot. auto.
Qed.

(** * The order of the points *)

Lemma length_put row k v j :
  array_index k = Some j ->
  length (put row k v) = (length row `max` S j)%nat.
Proof.
  intros Hk. unfold put. rewrite Hk.
  destruct (Nat.ltb_spec j (length row)).
  - rewrite length_insert. lia.
  - rewrite !length_app, length_replicate. simpl. lia.
Qed.

Lemma lookup_put row k v j i :
  array_index k = Some j ->
  put row k v !! i
  = if decide (i = j) then Some v
    else if decide (i < length row `max` S j)%nat
         then Some (default VUndefined (row !! i))
         else None.
Proof.
  intros Hk. unfold put. rewrite Hk.
  destruct (Nat.ltb_spec j (length row)) as [Hlt|Hge].
  - destruct (decide (i = j)) as [->|Hne].
    + apply list_lookup_insert_eq. exact Hlt.
    + rewrite list_lookup_insert_ne by congruence.
      destruct (decide (i < length row `max` S j)%nat) as [Hi|Hi].
      * destruct (lookup_lt_is_Some_2 row i) as [w Hw]; [lia|]. rewrite Hw. reflexivity.
      * apply lookup_ge_None_2. lia.
  - destruct (lt_eq_lt_dec i (length row)) as [[Hi|Hi]|Hi].
    + rewrite lookup_app_l by exact Hi.
      destruct (decide (i = j)); [lia|].
      destruct (decide (i < length row `max` S j)%nat); [|lia].
      destruct (lookup_lt_is_Some_2 row i) as [w Hw]; [lia|]. rewrite Hw. reflexivity.
    + rewrite lookup_app_r by lia.
      rewrite (lookup_ge_None_2 row i) by lia. simpl.
      destruct (decide (i = j)) as [->|Hne].
      * replace (j - length row)%nat with 0%nat by lia.
        replace (j - length row)%nat with 0%nat by lia. reflexivity.
      * destruct (decide (i < length row `max` S j)%nat); [|lia].
        rewrite lookup_app_l by (rewrite length_replicate; lia).
        apply lookup_replicate_2. lia.
    + rewrite lookup_app_r by lia.
      rewrite (lookup_ge_None_2 row i) by lia. simpl.
      destruct (decide (i = j)) as [->|Hne].
      * rewrite lookup_app_r by (rewrite length_replicate; lia).
        rewrite length_replicate.
        replace (j - length row - (j - length row))%nat with 0%nat by lia.
        reflexivity.
      * destruct (decide (i < length row `max` S j)%nat).
        -- rewrite lookup_app_l by (rewrite length_replicate; lia).
           apply lookup_replicate_2. lia.
        -- apply lookup_ge_None_2.
           rewrite length_app, length_replicate. simpl. lia.
Qed.

Lemma plus_assign_None row k n :
  array_index k = None -> plus_assign row k n = row.
Proof. intros Hk. unfold plus_assign, put. rewrite Hk. reflexivity. Qed.

Lemma plus_assign_key row k k' n :
  array_index k = array_index k' -> plus_assign row k n = plus_assign row k' n.
Proof. intros Hk. unfold plus_assign, put, get. rewrite Hk. reflexivity. Qed.

Lemma lookup_plus_assign row k n j i :
  array_index k = Some j ->
  plus_assign row k n !! i
  = if decide (i = j)
    then Some (VNum (add (ToNumber (default VUndefined (row !! j))) n))
    else if decide (i < length row `max` S j)%nat
         then Some (default VUndefined (row !! i))
         else None.
Proof.
  intros Hk. unfold plus_assign. rewrite (lookup_put _ _ _ j) by exact Hk.
  unfold get. rewrite Hk. reflexivity.
Qed.

Lemma length_plus_assign row k n j :
  array_index k = Some j ->
  length (plus_assign row k n) = (length row `max` S j)%nat.
Proof. intros Hk. unfold plus_assign. apply length_put. exact Hk. Qed.

(** Two increments of one row can be exchanged. *)
Lemma plus_assign_comm row k1 k2 n :
  plus_assign (plus_assign row k1 n) k2 n
  = plus_assign (plus_assign row k2 n) k1 n.
Proof.
  destruct (array_index k1) as [j1|] eqn:H1;
    [|rewrite !(plus_assign_None _ k1) by exact H1; reflexivity].
  destruct (array_index k2) as [j2|] eqn:H2;
    [|rewrite !(plus_assign_None _ k2) by exact H2; reflexivity].
  destruct (decide (j1 = j2)) as [->|Hne].
  { rewrite (plus_assign_key _ k2 k1) by congruence.
    rewrite (plus_assign_key row k2 k1) by congruence. reflexivity. }
  apply list_eq. intros i.
  rewrite (lookup_plus_assign (plus_assign row k1 n) k2 n j2 i H2).
  rewrite (lookup_plus_assign (plus_assign row k2 n) k1 n j1 i H1).
  rewrite (length_plus_assign row k1 n j1 H1), (length_plus_assign row k2 n j2 H2).
  rewrite !(lookup_plus_assign row k1 n j1 _ H1), !(lookup_plus_assign row k2 n j2 _ H2).
  repeat case_decide; try lia; try reflexivity; subst;
    try (rewrite (lookup_ge_None_2 row) by lia; reflexivity).
Qed.

(** Two visits can be exchanged, whether or not one of them throws. *)
Lemma visit_comm grid d1 d2 :
  bind (visit grid d1) (fun g => visit g d2)
  = bind (visit grid d2) (fun g => visit g d1).
Proof.
  unfold visit.
  set (x1 := Math_floor (mul (x d1) (of_Z 100))).
  set (x2 := Math_floor (mul (x d2) (of_Z 100))).
  destruct (array_index (Math_floor (mul (y d1) (of_Z 100)))) as [i1|];
    destruct (array_index (Math_floor (mul (y d2) (of_Z 100)))) as [i2|];
    simpl; try reflexivity.
  - destruct (grid !! i1) as [r1|] eqn:E1; destruct (grid !! i2) as [r2|] eqn:E2; simpl.
    + destruct (decide (i1 = i2)) as [->|Hne].
      * assert (r1 = r2) as -> by congruence.
        rewrite !list_lookup_insert_eq by (eapply lookup_lt_Some; eauto).
        rewrite !list_insert_insert_eq. f_equal. f_equal. apply plus_assign_comm.
      * rewrite !list_lookup_insert_ne by congruence. rewrite E1, E2.
        f_equal. apply list_insert_insert_ne. congruence.
    + rewrite list_lookup_insert_ne, E2; [reflexivity|].
      intros ->. congruence.
    + rewrite list_lookup_insert_ne, E1; [reflexivity|].
      intros ->. congruence.
    + reflexivity.
  - destruct (grid !! i1); reflexivity.
  - destruct (grid !! i2); reflexivity.
Qed.

Lemma forEach_cons2 d1 d2 data grid :
  forEach visit (d1 :: d2 :: data) grid
  = bind (bind (visit grid d1) (fun g => visit g d2)) (forEach visit data).
Proof. simpl. destruct (visit grid d1); reflexivity. Qed.

Lemma forEach_Permutation data data' :
  data ≡ₚ data' ->
  forall grid, forEach visit data grid = forEach visit data' grid.
Proof.
  induction 1 as [|d l l' _ IH|d1 d2 l|l l' l'' _ IH1 _ IH2]; intros grid.
  - reflexivity.
  - simpl. destruct (visit grid d); simpl; auto.
  - rewrite !forEach_cons2, visit_comm. reflexivity.
  - rewrite IH1. apply IH2.
Qed.

(** * Flattening *)

Section Flatten.
Context {A : Type}.
Implicit Types (grid : list (list A)) (row flat : list A).

Lemma flattenGrid_from grid flat :
  fold_left (fun flatGrid row => flatGrid ++ row) grid flat
  = flat ++ concat grid.
Proof.
  revert flat. induction grid as [|row grid IH]; intros flat; simpl.
  - now rewrite app_nil_r.
  - rewrite IH. now rewrite app_assoc.
Qed.

(** The rows, one after the other. *)
Lemma flattenGrid_concat grid : flattenGrid grid = concat grid.
Proof. unfold flattenGrid. now rewrite flattenGrid_from. Qed.

Lemma flattenGrid_cons row grid :
  flattenGrid (row :: grid) = row ++ flattenGrid grid.
Proof. now rewrite !flattenGrid_concat. Qed.

Lemma length_flattenGrid grid R :
  Forall (fun row => length row = R) grid ->
  length (flattenGrid grid) = (length grid * R)%nat.
Proof.
  induction 1 as [|row grid Hrow _ IH].
  - reflexivity.
  - rewrite flattenGrid_cons, length_app, IH, Hrow. simpl. lia.
Qed.

(** Row-major order: cell [(i, j)] is found at position [i * R + j]. *)
Lemma lookup_flattenGrid grid R i j :
  Forall (fun row => length row = R) grid -> (j < R)%nat ->
  flattenGrid grid !! (i * R + j)%nat = grid !! i ≫= (.!! j).
Proof.
  intros Hrows Hj. revert i.
  induction Hrows as [|row grid Hrow _ IH]; intros i.
  - now rewrite !lookup_nil.
  - rewrite flattenGrid_cons. destruct i as [|i]; simpl.
    + apply lookup_app_l. lia.
    + rewrite lookup_app_r by lia.
      replace (R + i * R + j - length row)%nat with (i * R + j)%nat by lia.
      apply IH.
Qed.

Lemma rows_of_flattenGrid grid R :
  Forall (fun row => length row = R) grid ->
  rows_of (length grid) R (flattenGrid grid) = grid.
Proof.
  induction 1 as [|row grid Hrow _ IH].
  - reflexivity.
  - rewrite flattenGrid_cons. simpl.
    rewrite take_app_length', drop_app_length' by congruence.
    now rewrite IH.
Qed.

Lemma unflatten_flattenGrid grid R :
  length grid = R -> Forall (fun row => length row = R) grid ->
  unflatten R (flattenGrid grid) = grid.
Proof.
  intros Hlen Hrows. unfold unflatten.
  rewrite (length_flattenGrid grid R Hrows).
  destruct R as [|R].
  - destruct grid; [reflexivity|discriminate].
  - rewrite Nat.div_mul by lia. now apply rows_of_flattenGrid.
Qed.


End Flatten.


(** * The grid built from points of the unit square *)

Lemma counts_below_total counts :
  Forall (Forall (fun c => (c <= total counts)%nat)) counts.
Proof.
  apply Forall_lookup. intros i row Hrow.
  apply Forall_lookup. intros j c Hc.
  etransitivity; [apply (sum_list_with_lookup id row j c Hc)|].
  apply (sum_list_with_lookup sum_list counts i row Hrow).
Qed.

(** C1.  For every sequence of points whose coordinates all lie in
    [[0, 1)], [getGrid] returns a grid of 100 rows of 100 cells, each cell
    holding a non-negative integer count, the counts summing to the length
    of the sequence; the empty sequence gives the grid of zeros.  (The
    sequence is shorter than [2 ^ 53], as every array is.) *)
Theorem getGrid_counts :
  (forall data,
     Forall unit_point data -> Z.of_nat (length data) < 2 ^ 53 ->
     exists counts,
       getGrid data = Ok (grid_of counts)
       /\ length counts = 100%nat
       /\ Forall (fun row => length row = 100%nat) counts
       /\ Forall (Forall (fun c =>
            integer_value (ToNumber (count c)) = Some (Z.of_nat c))) counts
       /\ total counts = length data)
  /\ getGrid [] = Ok (replicate 100 (replicate 100 (VNum (S754_zero false)))).
Proof.
  split; [|reflexivity].
  intros data Hdata Hlen.
  destruct (getGrid_counts_aux data Hdata Hlen) as (counts & Hrun & [Hl Hr] & Htot).
  exists counts. repeat split; auto.
  eapply Forall_impl; [apply counts_below_total|].
  intros row Hrow. eapply Forall_impl; [exact Hrow|].
  intros c Hc. simpl in Hc. unfold count, ToNumber.
  apply integer_value_of_Z. lia.
Qed.

Lemma getGrid_counts_witness :
  exists counts,
    getGrid [sample (decimal 95 (-2)) (decimal 95 (-2))] = Ok (grid_of counts)
    /\ length counts = 100%nat
    /\ Forall (fun row => length row = 100%nat) counts
    /\ Forall (Forall (fun c =>
         integer_value (ToNumber (count c)) = Some (Z.of_nat c))) counts
    /\ total counts = 1%nat.
Proof.
  apply (proj1 getGrid_counts [sample (decimal 95 (-2)) (decimal 95 (-2))]).
  - repeat constructor; vm_compute; reflexivity.
  - vm_compute; reflexivity.
Defined.

(** C4.  A coordinate equal to 1 is a number of [[0, 1]], yet its index is
    100: as [y] it makes [getGrid] throw, as [x] it lengthens row 50 to
    101 cells, the last one NaN. *)
Theorem getGrid_coordinate_one :
  in_unit (of_Z 1) = false
  /\ is_number (of_Z 1) && leb (of_Z 0) (of_Z 1) && leb (of_Z 1) (of_Z 1) = true
  /\ array_index (Math_floor (mul (of_Z 1) (of_Z 100))) = Some 100%nat
  /\ getGrid [sample (decimal 5 (-1)) (of_Z 1)] = TypeError
  /\ match getGrid [sample (of_Z 1) (decimal 5 (-1))] with
     | Ok grid =>
         length <$> grid !! 50%nat = Some 101%nat
         /\ grid !! 50%nat ≫= (.!! 100%nat) = Some (VNum NaN)
     | TypeError => False
     end.
Proof. vm_compute. repeat split; reflexivity. Qed.

(** C5.  With one point whose [x] is 1, the flattened grid has 10001
    entries, and the last entry of row 50 is NaN, not an integer. *)
Theorem flattenGrid_coordinate_one :
  match getGrid [sample (of_Z 1) (decimal 5 (-1))] with
  | Ok grid =>
      length (flattenGrid grid) = (100 * 100 + 1)%nat
      /\ flattenGrid grid !! (50 * 100 + 100)%nat = Some (VNum NaN)
  | TypeError => False
  end.
Proof. vm_compute. split; reflexivity. Qed.


(** C6.  Flattening a grid of [R] rows of [R] cells and cutting the result
    into rows of length [R] gives the grid back. *)
Theorem unflatten_flattenGrid_square {A} (R : nat) (grid : list (list A)) :
  length grid = R -> Forall (fun row => length row = R) grid ->
  unflatten R (flattenGrid grid) = grid.
Proof. apply unflatten_flattenGrid. Qed.

Lemma unflatten_flattenGrid_square_witness :
  unflatten 2 (flattenGrid [[of_Z 1; of_Z 2]; [of_Z 3; of_Z 4]])
  = [[of_Z 1; of_Z 2]; [of_Z 3; of_Z 4]].
Proof.
  apply (unflatten_flattenGrid_square 2 [[of_Z 1; of_Z 2]; [of_Z 3; of_Z 4]]).
  - reflexivity.
  - repeat constructor.
Defined.

(** C7.  [getGrid] gives the same result, a grid or a throw, for a
    sequence and for every permutation of it. *)
Theorem getGrid_Permutation data data' :
  data ≡ₚ data' -> getGrid data = getGrid data'.
Proof. intros H. unfold getGrid. now apply forEach_Permutation. Qed.

Lemma getGrid_Permutation_witness :
  getGrid [sample (of_Z 1) (decimal 5 (-1)); sample (decimal 25 (-2)) (decimal 75 (-2))]
  = getGrid [sample (decimal 25 (-2)) (decimal 75 (-2)); sample (of_Z 1) (decimal 5 (-1))].
Proof. apply getGrid_Permutation. apply perm_swap. Defined.



(** * The marks *)

(** C2.  Whatever the datasets and the parameters, the second mark is the
    density of the global dataset with weight 0.2, the bandwidth of the
    state, stroke opacity [opacity - skew] and 100 thresholds, and the
    third is the density of the local dataset with fill and stroke opacity
    [opacity + skew], the same bandwidth and thresholds.  Nothing is
    clamped: opacity 0.9 and skew 0.5 give 0.4 and 1.4. *)
Theorem marks_density (localData globalData : list SessionData)
    (displayPoints : bool) (opacity bandwidth skew : number) :
  let s := {| localData := Some localData; globalData := Some globalData;
              displayPoints := displayPoints; opacity := opacity;
              bandwidth := bandwidth; skew := skew |} in
  (exists ms,
     marks s = Some ms
     /\ ms !! 1%nat = Some (Some (Plot_density globalData {|
          Density.weight := Some (decimal 2 (-1));
          Density.x := "x";
          Density.y := "y";
          Density.opacity := None;
          Density.bandwidth := bandwidth;
          Density.fill := None;
          Density.fillOpacity := None;
          Density.stroke := "density";
          Density.strokeOpacity := sub opacity skew;
          Density.thresholds := of_Z 100 |}))
     /\ ms !! 2%nat = Some (Some (Plot_density localData {|
          Density.weight := None;
          Density.x := "x";
          Density.y := "y";
          Density.opacity := Some (of_Z 1);
          Density.bandwidth := bandwidth;
          Density.fill := Some "density";
          Density.fillOpacity := Some (add opacity skew);
          Density.stroke := "density";
          Density.strokeOpacity := add opacity skew;
          Density.thresholds := of_Z 100 |})))
  /\ sub (decimal 9 (-1)) (decimal 5 (-1)) = decimal 4 (-1)
  /\ add (decimal 9 (-1)) (decimal 5 (-1)) = decimal 14 (-1)
  /\ ltb (of_Z 1) (decimal 14 (-1)) = true.
Proof.
  split.
  - eexists. split; [reflexivity|]. split; reflexivity.
  - vm_compute. repeat split; reflexivity.
Qed.

(** C8.  The fourth entry of the marks is the dot mark over the local
    dataset (radius 1.5, stroke opacity 0.5, fill opacity 0.2) when
    [displayPoints] is set and [null] otherwise; a dot mark over session
    data occurs among the marks exactly when [displayPoints] is set; the
    other entries are the same either way. *)
Theorem marks_points (localData globalData : list SessionData)
    (opacity bandwidth skew : number) :
  let s b := {| localData := Some localData; globalData := Some globalData;
                displayPoints := b; opacity := opacity;
                bandwidth := bandwidth; skew := skew |} in
  exists shown hidden,
    marks (s true) = Some shown /\ marks (s false) = Some hidden
    /\ shown !! 3%nat = Some (Some (Plot_dot localData {|
         Dot.x := "x";
         Dot.y := "y";
         Dot.fill := "white";
         Dot.stroke := "white";
         Dot.strokeOpacity := decimal 5 (-1);
         Dot.fillOpacity := decimal 2 (-1);
         Dot.r := decimal 15 (-1) |}))
    /\ hidden !! 3%nat = Some None
    /\ (exists data options, Some (Plot_dot data options) ∈ shown)
    /\ ~ (exists data options, Some (Plot_dot data options) ∈ hidden)
    /\ take 3 shown = take 3 hidden
    /\ drop 4 shown = drop 4 hidden
    /\ length shown = length hidden.
Proof.
  intros s. eexists _, _.
  split; [reflexivity|]. split; [reflexivity|].
  split; [reflexivity|]. split; [reflexivity|].
  split; [|split; [|repeat split; reflexivity]].
  - eexists _, _. do 3 apply list_elem_of_further. apply list_elem_of_here.
  - intros (data & options & Hin).
    repeat (apply elem_of_cons in Hin; destruct Hin as [Hin|Hin]; [discriminate|]).
    inversion Hin.
Qed.

(** * The emotion catalog *)

(** C9.  The catalog has 9 entries, each with a colour, so the fill of
    the annotation dots is defined for each of them; the [hsl] field plays
    no part in it. *)
Theorem emotions_fill :
  length emotions = 9%nat
  /\ Forall (fun d => exists c, color d = Some c /\ fillOf d = Ok (toRgb c)) emotions
  /\ fillOf <$> emotions
     = Ok <$> ["rgb(255, 248, 77)"; "rgb(242, 136, 38)"; "rgb(210, 37, 25)";
               "rgb(182, 18, 67)"; "rgb(239, 92, 180)"; "rgb(99, 26, 192)";
               "rgb(43, 48, 170)"; "rgb(26, 179, 192)"; "rgb(128, 128, 128)"]
  /\ (forall d h,
        fillOf {| name := name d; color := color d; hsl := h;
                  position := position d |} = fillOf d).
Proof.
  split; [reflexivity|]. split; [|split].
  - repeat constructor; eexists; split; reflexivity.
  - vm_compute. reflexivity.
  - intros d h. reflexivity.
Qed.

(** * The sliders *)

(** The initial bandwidth, skew and [displayPoints] lie in their declared
    ranges; each handler stores the number parsed from the text of its
    input as it is and leaves the other parameters alone. *)
Theorem handlers_store_parsed_value :
  Range.contains bandwidthInput (bandwidth initial) = true
  /\ Range.contains skewInput (skew initial) = true
  /\ displayPoints initial = false
  /\ (forall event s,
        handleOpacityChange event s
        = {| localData := localData s; globalData := globalData s;
             displayPoints := displayPoints s;
             opacity := parseFloat (target_value event);
             bandwidth := bandwidth s; skew := skew s |}
        /\ Range.contains opacityInput (opacity (handleOpacityChange event s))
           = Range.contains opacityInput (parseFloat (target_value event)))
  /\ (forall event s,
        handleBandwidthChange event s
        = {| localData := localData s; globalData := globalData s;
             displayPoints := displayPoints s;
             opacity := opacity s;
             bandwidth := parseFloat (target_value event); skew := skew s |}
        /\ Range.contains bandwidthInput (bandwidth (handleBandwidthChange event s))
           = Range.contains bandwidthInput (parseFloat (target_value event)))
  /\ (forall event s,
        handleSkewChange event s
        = {| localData := localData s; globalData := globalData s;
             displayPoints := displayPoints s;
             opacity := opacity s; bandwidth := bandwidth s;
             skew := parseFloat (target_value event) |}
        /\ Range.contains skewInput (skew (handleSkewChange event s))
           = Range.contains skewInput (parseFloat (target_value event))).
Proof.
  split; [vm_compute; reflexivity|].
  split; [vm_compute; reflexivity|].
  split; [reflexivity|].
  repeat split.
Qed.

(** * Beyond the unit square *)

(** The rounded value is not below the truncated one; it is zero only
    when the truncated mantissa is. *)
Lemma binary_round_aux_lower s (M : positive) ex :
  let e' := Z.max ex (fexp prec emax (Zdigits2 (Zpos M) + ex)) in
  let m' := Zpos M / 2 ^ (e' - ex) in
  match binary_round_aux prec emax s (Zpos M) ex loc_Exact with
  | S754_zero _ => m' = 0
  | S754_finite _ m e => m' <= Zpos m * 2 ^ (e - e')
  | _ => True
  end.
Proof.
  intros e' m'.
  destruct (binary_round_aux_spec s M ex) as [Hm' _]. fold e' m' in Hm'.
  pose proof (Zdigits2_pos (Zpos M) eq_refl) as Hd.
  set (d := Zdigits2 (Zpos M)) in *.
  assert (He' : e' = Z.max ex (Z.max (d + ex - 53) (-1074))) by reflexivity.
  assert (Hn : e' - ex = Z.max 0 (fexp prec emax (d + ex) - ex)).
  { rewrite fexp_eq. lia. }
  assert (Hm'0 : 0 <= m') by (apply Z.div_pos; [lia|pow_pos]).
  unfold binary_round_aux, shr_fexp. simpl shr_record_of_loc. fold d.
  destruct (shr_spec (Zpos M) ex (fexp prec emax (d + ex) - ex))
    as (r1 & s1 & E1); [lia|].
  rewrite E1, <- Hn. fold m'. simpl shr_m.
  replace (ex + (e' - ex)) with e' by lia.
  set (mr := round_nearest_even m' _).
  pose proof (round_nearest_even_bounds m'
    (loc_of_shr_record {| shr_m := m'; shr_r := r1; shr_s := s1 |})) as Hmr.
  fold mr in Hmr.
  destruct (shr_spec mr e' (fexp prec emax (Zdigits2 mr + e') - e'))
    as (r2 & s2 & E2); [lia|].
  rewrite E2. simpl shr_m.
  set (k := Z.max 0 (fexp prec emax (Zdigits2 mr + e') - e')) in *.
  assert (Hk : k = 0 \/ k = 1 /\ mr = 2 ^ 53).
  { subst k. rewrite fexp_eq.
    assert (Hdr : Zdigits2 mr <= 54) by (apply Zdigits2_le; lia).
    destruct (Z.le_gt_cases (Zdigits2 mr) 53) as [Hle|Hgt]; [left; lia|].
    right. split; [lia|].
    assert (Hmr0 : 0 < mr) by (destruct mr; simpl in Hgt; lia).
    destruct (Zdigits2_bounds mr Hmr0) as [Hl _].
    replace (Zdigits2 mr - 1) with 53 in Hl by lia. lia. }
  destruct Hk as [->|[-> Emr]].
  - rewrite Z.div_1_r.
    destruct mr as [|q|q] eqn:Eq; [lia| |lia].
    destruct (Z.leb_spec (e' + 0) (emax - prec)); [|exact I].
    replace (e' + 0 - e') with 0 by lia. lia.
  - rewrite Emr. change (2 ^ 53 / 2 ^ 1) with (Zpos 4503599627370496).
    destruct (Z.leb_spec (e' + 1) (emax - prec)); [|exact I].
    replace (e' + 1 - e') with 1 by lia.
    change (Z.pos 4503599627370496 * 2 ^ 1) with (2 ^ 53). lia.
Qed.

(** A number used as a key that is negative names no element. *)
Lemma array_index_negative m e : array_index (S754_finite true m e) = None.
Proof.
  unfold array_index, integer_value.
  destruct e as [|k|k].
  - rewrite Z.shiftl_0_r. reflexivity.
  - rewrite Z.shiftl_mul_pow2 by lia.
    assert (0 < 2 ^ Zpos k) by pow_pos.
    unfold cond_Zopp.
    destruct (Z.leb_spec 0 (- (Zpos m * 2 ^ Zpos k))); [nia|reflexivity].
  - destruct (Z.eqb_spec (Z.land (Zpos m) (Z.ones (Zpos k))) 0) as [E|E];
      [|reflexivity].
    rewrite Z.land_ones in E by lia.
    rewrite Z.shiftr_div_pow2 by lia.
    assert (H2 : 0 < 2 ^ Zpos k) by pow_pos.
    assert (1 <= Zpos m / 2 ^ Zpos k).
    { apply Z.mod_divide in E; [|lia]. destruct E as [q Hq].
      rewrite Hq, Z.div_mul by lia. nia. }
    unfold cond_Zopp.
    destruct (Z.leb_spec 0 (- (Zpos m / 2 ^ Zpos k))); [lia|reflexivity].
Qed.

(** Rounding a negative integer gives a negative number, never a zero. *)
Lemma of_Z_neg_index p : array_index (of_Z (Zneg p)) = None.
Proof.
  change (of_Z (Zneg p)) with (binary_round prec emax true p 0).
  unfold binary_round.
  destruct (shl_align p 0 _) as [mz ez] eqn:E.
  pose proof (shl_align_fst p 0 (fexp prec emax (Z.pos (digits2_pos p) + 0))) as Hf.
  pose proof (shl_align_snd p 0 (fexp prec emax (Z.pos (digits2_pos p) + 0))) as Hs.
  rewrite E in Hf, Hs. simpl fst in Hf. simpl snd in Hs.
  change (Z.pos (digits2_pos p)) with (Zdigits2 (Zpos p)) in *.
  rewrite fexp_eq in *.
  pose proof (Zdigits2_pos (Zpos p) eq_refl) as Hdp.
  assert (Hdz : Zdigits2 (Zpos mz) + ez = Zdigits2 (Zpos p)).
  { rewrite Hf, Zdigits2_shift by lia. lia. }
  destruct (binary_round_aux_spec true mz ez) as [_ Hr].
  pose proof (binary_round_aux_lower true mz ez) as Hl.
  rewrite fexp_eq, Hdz in *.
  destruct (binary_round_aux prec emax true (Zpos mz) ez loc_Exact)
    as [s'|s'| |s' m e].
  - exfalso.
    pose proof (Zdigits2_bounds (Zpos mz) eq_refl) as [Hlo _].
    set (n := Z.max ez (Z.max (Zdigits2 (Z.pos p) + 0 - 53) (-1074)) - ez) in *.
    assert (Hn : 0 <= n <= Zdigits2 (Zpos mz) - 1) by lia.
    assert (2 ^ n <= Zpos mz).
    { etransitivity; [|exact Hlo]. apply Z.pow_le_mono_r; lia. }
    assert (0 < 2 ^ n) by pow_pos.
    assert (1 <= Zpos mz / 2 ^ n).
    { apply Z.div_le_lower_bound; lia. }
    cbv zeta in Hl.
    replace (Z.max ez (Z.max (Zdigits2 (Z.pos p) - 53) (-1074)) - ez) with n in Hl by lia.
    lia.
  - destruct Hr as [-> _]. reflexivity.
  - contradiction.
  - destruct Hr as [-> _]. apply array_index_negative.
Qed.

Lemma leb_1_finite m e :
  leb (of_Z 1) (S754_finite false m e)
  = match -52 ?= e with
    | Lt => true
    | Eq => 4503599627370496 <=? Zpos m
    | Gt => false
    end.
Proof.
  unfold leb, SFleb. rewrite of_Z_1. unfold SFcompare.
  destruct (-52 ?= e); [|reflexivity|reflexivity].
  rewrite Pos.compare_cont_spec, Pos2Z.inj_compare.
  unfold Pos.switch_Eq, Z.leb.
  destruct (4503599627370496 ?= Z.pos m); reflexivity.
Qed.

(** The mantissa and exponent of a number. *)
Lemma is_number_finite s m e :
  is_number (S754_finite s m e) = true ->
  -1074 <= e <= 971 /\ Zpos m < 2 ^ 53 /\ (-1074 < e -> 2 ^ 52 <= Zpos m).
Proof.
  unfold is_number, valid_binary, bounded, canonical_mantissa.
  rewrite andb_true_iff, Z.eqb_eq, Z.leb_le, fexp_eq.
  change (Z.pos (digits2_pos m)) with (Zdigits2 (Zpos m)).
  change (emax - prec) with 971.
  intros [Hcan Hmax].
  pose proof (Zdigits2_bounds (Zpos m) eq_refl) as [Hml Hmu].
  pose proof (Zdigits2_pos (Zpos m) eq_refl) as Hd.
  set (d := Zdigits2 (Zpos m)) in *.
  split; [lia|]. split.
  - eapply Z.lt_le_trans; [exact Hmu|]. apply Z.pow_le_mono_r; lia.
  - intros He. assert (d = 53) by lia.
    replace (d - 1) with 52 in Hml by lia. exact Hml.
Qed.

(** The product of a number of mantissa [m] and 100 keeps at least one
    bit when it is truncated: it does not underflow to zero. *)
Lemma product_truncation_pos (m : positive) e :
  -1074 <= e ->
  let M := Zpos (m * 7036874417766400) in
  let e' := Z.max (e + -46) (fexp prec emax (Zdigits2 M + (e + -46))) in
  1 <= M / 2 ^ (e' - (e + -46)).
Proof.
  intros He M e'.
  pose proof (Zdigits2_bounds M eq_refl) as [Hlo _].
  assert (HM : 2 ^ 52 <= M).
  { unfold M. rewrite Pos2Z.inj_mul.
    change (Zpos 7036874417766400) with (100 * 2 ^ 46). 
    change (2 ^ 52) with (1 * (64 * 2 ^ 46)). nia. }
  assert (Hd : 53 <= Zdigits2 M).
  { destruct (Z.le_gt_cases 53 (Zdigits2 M)) as [H|H]; [exact H|].
    pose proof (Zdigits2_bounds M eq_refl) as [_ Hu].
    assert (2 ^ Zdigits2 M <= 2 ^ 52) by (apply Z.pow_le_mono_r; lia). lia. }
  unfold e'. rewrite fexp_eq.
  set (n := Z.max (e + -46) (Z.max (Zdigits2 M + (e + -46) - 53) (-1074)) - (e + -46)).
  assert (Hn : 0 <= n <= Zdigits2 M - 1) by lia.
  assert (2 ^ n <= M).
  { etransitivity; [|exact Hlo]. apply Z.pow_le_mono_r; lia. }
  assert (0 < 2 ^ n) by pow_pos.
  apply Z.div_le_lower_bound; lia.
Qed.

Lemma index_infinity s : array_index (Math_floor (S754_infinity s)) = None.
Proof. reflexivity. Qed.

Lemma index_infinity_product s :
  array_index (Math_floor (mul (S754_infinity s) (of_Z 100))) = None.
Proof. destruct s; reflexivity. Qed.

(** A negative coordinate has no array index. *)
Lemma negative_index a :
  is_number a = true -> ltb a (of_Z 0) = true ->
  array_index (Math_floor (mul a (of_Z 100))) = None.
Proof.
  intros Hv Hneg.
  destruct a as [s|s| |s m e]; try discriminate.
  - apply index_infinity_product.
  - destruct s; [|discriminate].
    apply is_number_finite in Hv. destruct Hv as [He _].
    rewrite of_Z_100. unfold mul, SFmul. simpl xorb.
    destruct (binary_round_aux_spec true (m * 7036874417766400) (e + -46))
      as [_ Hr].
    pose proof (binary_round_aux_lower true (m * 7036874417766400) (e + -46)) as Hl.
    pose proof (product_truncation_pos m e ltac:(lia)) as Hpos.
    cbv zeta in Hr, Hl, Hpos.
    destruct (binary_round_aux prec emax true _ _ loc_Exact)
      as [s'|s'| |s' m2 e2].
    + lia.
    + destruct Hr as [-> _]. reflexivity.
    + contradiction.
    + destruct Hr as [-> _].
      destruct e2 as [|k|k]; try apply array_index_negative.
      unfold Math_floor, cond_Zopp.
      rewrite Z.shiftr_div_pow2 by lia.
      assert (H2 : 0 < 2 ^ Zpos k) by pow_pos.
      assert (Hz : - Zpos m2 / 2 ^ Zpos k < 0).
      { apply Z.div_lt_upper_bound; lia. }
      destruct (- Zpos m2 / 2 ^ Zpos k) as [|z|z] eqn:Ez; try lia.
      apply of_Z_neg_index.
Qed.

(** A coordinate of at least 1 has no array index below 100. *)
Lemma ge_1_index a j :
  is_number a = true -> leb (of_Z 1) a = true ->
  array_index (Math_floor (mul a (of_Z 100))) = Some j -> (100 <= j)%nat.
Proof.
  intros Hv Hge.
  destruct a as [s|s| |s m e].
  - rewrite of_Z_1 in Hge. discriminate.
  - rewrite index_infinity_product. discriminate.
  - rewrite of_Z_1 in Hge. discriminate.
  - destruct s; [rewrite of_Z_1 in Hge; discriminate|].
    apply is_number_finite in Hv. destruct Hv as (He & Hm & Hnorm).
    rewrite leb_1_finite in Hge.
    assert (He52 : -52 <= e).
    { destruct (Z.compare_spec (-52) e); first [lia|discriminate]. }
    specialize (Hnorm ltac:(lia)).
    rewrite of_Z_100. unfold mul, SFmul. simpl xorb.
    destruct (binary_round_aux_spec false (m * 7036874417766400) (e + -46))
      as [Hm' Hr].
    pose proof (binary_round_aux_lower false (m * 7036874417766400) (e + -46)) as Hl.
    pose proof (product_truncation_pos m e ltac:(lia)) as Hpos.
    cbv zeta in Hr, Hl, Hpos.
    rewrite fexp_eq in *.
    set (M := Zpos (m * 7036874417766400)) in *.
    assert (HM : M = Zpos m * (100 * 2 ^ 46)) by (unfold M; now rewrite Pos2Z.inj_mul).
    set (e' := Z.max (e + -46) (Z.max (Zdigits2 M + (e + -46) - 53) (-1074))) in *.
    set (m' := M / 2 ^ (e' - (e + -46))) in *.
    destruct (binary_round_aux prec emax false _ _ loc_Exact)
      as [s'|s'| |s' m2 e2].
    + lia.
    + destruct Hr as [-> _]. rewrite index_infinity. discriminate.
    + contradiction.
    + destruct Hr as (-> & He2 & Hm2).
      assert (H2e : 0 < 2 ^ (e2 - e')) by pow_pos.
      assert (Hd : 105 <= Zdigits2 M).
      { destruct (Z.le_gt_cases 105 (Zdigits2 M)) as [H|H]; [exact H|].
        pose proof (Zdigits2_bounds M eq_refl) as [_ Hu].
        assert (H104 : 2 ^ Zdigits2 M <= 2 ^ 104) by (apply Z.pow_le_mono_r; lia).
        change (2 ^ 52) with 4503599627370496 in Hnorm.
        change (2 ^ 104) with (4503599627370496 * (64 * 2 ^ 46)) in H104. nia. }
      assert (Hbig : 2 ^ 52 <= m').
      { unfold m'. apply Z.div_le_lower_bound; [pow_pos|].
        rewrite <- Z.pow_add_r by lia.
        pose proof (Zdigits2_bounds M eq_refl) as [Hlo _].
        etransitivity; [|exact Hlo]. apply Z.pow_le_mono_r; lia. }
      assert (Hp : 2 ^ (e2 - e') <= 2).
      { change 2 with (2 ^ 1) at 2. apply Z.pow_le_mono_r; lia. }
      assert (Hm2' : 2 ^ 51 <= Zpos m2).
      { change (2 ^ 52) with (2 ^ 51 * 2) in Hbig. nia. }
      change (2 ^ 51) with 2251799813685248 in Hm2'.
      destruct e2 as [|k|k].
      * (* the product is an integer of exponent 0 *)
        unfold Math_floor, array_index, integer_value.
        rewrite Z.shiftl_0_r. simpl cond_Zopp.
        destruct (0 <=? Zpos m2) eqn:E0; destruct (Zpos m2 <? 2 ^ 32 - 1) eqn:E1;
          simpl; intros H; try discriminate.
        injection H as <-. lia.
      * (* a positive exponent *)
        unfold Math_floor, array_index, integer_value. simpl cond_Zopp.
        rewrite Z.shiftl_mul_pow2 by lia.
        assert (H2k : 0 < 2 ^ Zpos k) by pow_pos.
        destruct (0 <=? Zpos m2 * 2 ^ Zpos k) eqn:E0;
          destruct (Zpos m2 * 2 ^ Zpos k <? 2 ^ 32 - 1) eqn:E1;
          simpl; intros H; try discriminate.
        injection H as <-. nia.
      * (* fractional bits: the floor is at least 100 *)
        unfold Math_floor. simpl cond_Zopp.
        rewrite Z.shiftr_div_pow2 by lia.
        assert (H2k : 0 < 2 ^ Zpos k) by pow_pos.
        assert (Hex : e + -46 < 0) by lia.
        assert (HMge : 100 * 2 ^ (- (e + -46)) <= M).
        { rewrite HM.
          destruct (Z.le_gt_cases 0 e) as [Hpos0|Hneg0].
          - assert (2 ^ (- (e + -46)) <= 2 ^ 46) by (apply Z.pow_le_mono_r; lia). nia.
          - replace (- (e + -46)) with (- e + 46) by lia.
            rewrite Z.pow_add_r by lia.
            assert (2 ^ (- e) <= 2 ^ 52) by (apply Z.pow_le_mono_r; lia). nia. }
        assert (Hm'ge : 100 * 2 ^ (- e') <= m').
        { unfold m'. apply Z.div_le_lower_bound; [pow_pos|].
          rewrite (Z.mul_comm (2 ^ _)), <- Z.mul_assoc, <- Z.pow_add_r by lia.
          replace (- e' + (e' - (e + -46))) with (- (e + -46)) by lia.
          exact HMge. }
        assert (Hm2ge : 100 * 2 ^ Zpos k <= Zpos m2).
        { apply (Z.mul_le_mono_pos_r _ _ (2 ^ (Z.neg k - e'))); [lia|].
          rewrite <- Z.mul_assoc, <- Z.pow_add_r by lia.
          replace (Z.pos k + (Z.neg k - e')) with (- e') by lia. lia. }
        assert (Hz : 100 <= Zpos m2 / 2 ^ Zpos k).
        { apply Z.div_le_lower_bound; lia. }
        assert (Hzu : Zpos m2 / 2 ^ Zpos k < 2 ^ 53).
        { apply Z.div_lt_upper_bound; [lia|].
          assert (2 <= 2 ^ Zpos k).
          { change 2 with (2 ^ 1) at 1. apply Z.pow_le_mono_r; lia. }
          assert (1 <= 2 ^ (Z.neg k - e')) by lia.
          nia. }
        destruct (Zpos m2 / 2 ^ Zpos k) as [|z|z] eqn:Ez; try lia.
        unfold array_index. rewrite integer_value_of_Z by lia.
        destruct (0 <=? Zpos z) eqn:E0; destruct (Zpos z <? 2 ^ 32 - 1) eqn:E1;
          simpl; intros H; try discriminate.
        injection H as <-. lia.
Qed.


(** A number is negative, NaN, in [[0, 1)] or at least 1. *)
Lemma number_cases a :
  is_number a = true ->
  in_unit a = true \/ ltb a (of_Z 0) = true \/ leb (of_Z 1) a = true \/ a = NaN.
Proof.
  intros Hv. unfold in_unit. rewrite Hv.
  destruct a as [s|s| |s m e].
  - left. reflexivity.
  - destruct s; [right; left; reflexivity|right; right; left].
    rewrite of_Z_1. reflexivity.
  - right; right; right. reflexivity.
  - destruct s; [right; left; reflexivity|].
    rewrite leb_0_finite, ltb_finite_1, leb_1_finite.
    rewrite (Z.compare_antisym e (-52)). unfold negb, andb.
    destruct (Z.compare_spec e (-52)); simpl; auto.
    destruct (Z.ltb_spec (Zpos m) 4503599627370496);
      destruct (Z.leb_spec 4503599627370496 (Zpos m)); auto; lia.
Qed.

Lemma index_NaN : array_index (Math_floor (mul NaN (of_Z 100))) = None.
Proof. reflexivity. Qed.

(** Under binary64 rounding, [Math.floor(a * 100)] is an array index
    below 100 exactly for the numbers [a] of [[0, 1)]. *)
Lemma array_index_unit_iff a :
  is_number a = true ->
  in_unit a = true
  <-> exists j, array_index (Math_floor (mul a (of_Z 100))) = Some j
                /\ (j < 100)%nat.
Proof.
  intros Hv. split; [apply unit_index|].
  intros (j & Hj & Hlt).
  destruct (number_cases a Hv) as [H|[H|[H| ->]]].
  - exact H.
  - rewrite (negative_index a Hv H) in Hj. discriminate.
  - pose proof (ge_1_index a j Hv H Hj). lia.
  - rewrite index_NaN in Hj. discriminate.
Qed.

(** X1.  For every number [a], [Math.floor(a * 100)] is an array index
    between 0 and 99 exactly when [0 <= a < 1]: negative numbers, numbers
    from 1 on, the infinities and NaN never give one. *)
Theorem index_below_100_iff a :
  is_number a = true ->
  in_unit a = true
  <-> exists j, array_index (Math_floor (mul a (of_Z 100))) = Some j
                /\ (j < 100)%nat.
Proof. apply array_index_unit_iff. Qed.

Lemma index_below_100_iff_witness :
  in_unit (decimal 29 (-2)) = true
  <-> exists j, array_index (Math_floor (mul (decimal 29 (-2)) (of_Z 100))) = Some j
                /\ (j < 100)%nat.
Proof. apply index_below_100_iff. vm_compute. reflexivity. Defined.

(** ** What a visit does to the shape of the grid *)

Lemma visit_Ok grid d grid' :
  visit grid d = Ok grid' ->
  exists i row,
    array_index (yIndex d) = Some i /\ grid !! i = Some row
    /\ grid' = <[i := plus_assign row (xIndex d) (of_Z 1)]> grid.
Proof.
  unfold visit. fold (yIndex d) (xIndex d).
  destruct (array_index (yIndex d)) as [i|]; [|discriminate].
  destruct (grid !! i) as [row|] eqn:E; [|discriminate].
  intros H. injection H as <-. eauto.
Qed.

Lemma visit_TypeError grid d :
  visit grid d = TypeError
  <-> forall i, array_index (yIndex d) = Some i -> (length grid <= i)%nat.
Proof.
  unfold visit. fold (yIndex d) (xIndex d).
  destruct (array_index (yIndex d)) as [i|].
  - destruct (grid !! i) as [row|] eqn:E.
    + split; [discriminate|]. intros H. specialize (H i eq_refl).
      apply lookup_lt_Some in E. lia.
    + split; [|reflexivity]. intros _ i' H. injection H as <-.
      apply lookup_ge_None_1 in E. exact E.
  - split; [|reflexivity]. intros _ i H. discriminate.
Qed.

Lemma length_plus_assign_ge row k n : (length row <= length (plus_assign row k n))%nat.
Proof.
  destruct (array_index k) as [j|] eqn:E.
  - rewrite (length_plus_assign row k n j E). lia.
  - rewrite plus_assign_None by exact E. lia.
Qed.

Lemma visit_shape grid d grid' (n : nat) :
  visit grid d = Ok grid' ->
  length grid' = length grid
  /\ (Forall (fun row => (n <= length row)%nat) grid ->
      Forall (fun row => (n <= length row)%nat) grid').
Proof.
  intros H. destruct (visit_Ok grid d grid' H) as (i & row & Hi & Hrow & ->).
  split; [apply length_insert|].
  intros Hall. apply Forall_insert; [exact Hall|].
  eapply Forall_lookup_1 in Hall; [|exact Hrow]. simpl in Hall.
  pose proof (length_plus_assign_ge row (xIndex d) (of_Z 1)). lia.
Qed.

Lemma forEach_shape data : forall grid grid' (n : nat),
  forEach visit data grid = Ok grid' ->
  length grid' = length grid
  /\ (Forall (fun row => (n <= length row)%nat) grid ->
      Forall (fun row => (n <= length row)%nat) grid').
Proof.
  induction data as [|d data IH]; intros grid grid' n H.
  - simpl in H. injection H as <-. auto.
  - simpl in H. destruct (visit grid d) as [g1|] eqn:E; [|discriminate].
    simpl in H. destruct (visit_shape grid d g1 n E) as [Hl1 Hr1].
    destruct (IH g1 grid' n H) as [Hl2 Hr2].
    split; [congruence|auto].
Qed.

Lemma forEach_returns data : forall grid,
  (exists grid', forEach visit data grid = Ok grid')
  <-> Forall (fun d => exists i, array_index (yIndex d) = Some i
                                 /\ (i < length grid)%nat) data.
Proof.
  induction data as [|d data IH]; intros grid.
  - simpl. split; [constructor|eauto].
  - simpl. split.
    + intros [grid' H]. destruct (visit grid d) as [g1|] eqn:E; [|discriminate].
      simpl in H. destruct (visit_shape grid d g1 0%nat E) as [Hl _].
      constructor.
      * destruct (visit_Ok grid d g1 E) as (i & row & Hi & Hrow & _).
        exists i. split; [exact Hi|]. eapply lookup_lt_Some; eauto.
      * rewrite <- Hl. apply IH. eauto.
    + intros H. apply Forall_cons in H. destruct H as [(i & Hi & Hlt) Hrest].
      destruct (visit grid d) as [g1|] eqn:E.
      * simpl. destruct (visit_shape grid d g1 0%nat E) as [Hl _].
        apply IH. rewrite Hl. exact Hrest.
      * pose proof (proj1 (visit_TypeError grid d) E i Hi). lia.
Qed.

(** Whatever the input, a grid returned by [getGrid] has exactly 100
    rows, every row has at least 100 cells, and its flattening has at
    least 10000 entries: rows are never removed or shortened. *)
Lemma getGrid_rows data grid :
  getGrid data = Ok grid ->
  length grid = 100%nat
  /\ Forall (fun row => (100 <= length row)%nat) grid
  /\ (100 * 100 <= length (flattenGrid grid))%nat.
Proof.
  intros H. unfold getGrid in H.
  destruct (forEach_shape data _ grid 100%nat H) as [Hl Hr].
  assert (Hrows : Forall (fun row => (100 <= length row)%nat) grid).
  { apply Hr. unfold Array_from. apply Forall_replicate.
    rewrite length_replicate. lia. }
  unfold Array_from in Hl. rewrite length_replicate in Hl.
  split; [exact Hl|]. split; [exact Hrows|].
  rewrite flattenGrid_concat.
  clear H Hr. revert Hl. generalize 100%nat at 1 3 as n. 
  induction Hrows as [|row g Hrow _ IH]; intros n Hl; simpl in *.
  - subst n. lia.
  - destruct n as [|n]; [discriminate|]. injection Hl as Hl.
    rewrite length_app. specialize (IH n Hl). lia.
Qed.



(** X3.  For points whose [y] is a number, [getGrid] returns a grid exactly
    when every [y] lies in [[0, 1)]; otherwise it throws. *)
Theorem getGrid_returns_iff data :
  Forall (fun d => is_number (y d) = true) data ->
  (exists grid, getGrid data = Ok grid)
  <-> Forall (fun d => in_unit (y d) = true) data.
Proof.
  intros Hv. unfold getGrid. rewrite forEach_returns.
  unfold Array_from. rewrite length_replicate.
  rewrite !Forall_forall. split; intros H d Hd.
  - apply array_index_unit_iff; [apply (proj1 (Forall_forall _ _) Hv d Hd)|].
    exact (H d Hd).
  - apply unit_index. exact (H d Hd).
Qed.

Lemma getGrid_returns_iff_witness :
  (exists grid, getGrid [sample (of_Z 2) (decimal 5 (-1)); sample NaN (of_Z 0)] = Ok grid)
  <-> Forall (fun d => in_unit (y d) = true)
        [sample (of_Z 2) (decimal 5 (-1)); sample NaN (of_Z 0)].
Proof. apply getGrid_returns_iff. repeat constructor. Defined.

(** ** Cell by cell *)

Lemma cell_insert counts i j row c i' j' :
  counts !! i = Some row -> row !! j = Some c ->
  cell (<[i := <[j := S c]> row]> counts) i' j'
  = if decide (i' = i /\ j' = j) then Some (S c) else cell counts i' j'.
Proof.
  intros Hrow Hc. unfold cell.
  destruct (decide (i' = i)) as [->|Hi].
  - rewrite list_lookup_insert_eq by (eapply lookup_lt_Some; eauto). simpl.
    rewrite Hrow. simpl.
    destruct (decide (j' = j)) as [->|Hj].
    + rewrite list_lookup_insert_eq by (eapply lookup_lt_Some; eauto).
      rewrite decide_True by auto. reflexivity.
    + rewrite list_lookup_insert_ne by congruence.
      rewrite decide_False by (intros [_ ?]; congruence). reflexivity.
  - rewrite list_lookup_insert_ne by congruence.
    rewrite decide_False by (intros [? _]; congruence). reflexivity.
Qed.

Lemma tally_cons i j d data :
  tally i j (d :: data)
  = ((if decide (array_index (yIndex d) = Some i /\ array_index (xIndex d) = Some j)
      then 1 else 0) + tally i j data)%nat.
Proof.
  unfold tally. rewrite filter_cons. case_decide; reflexivity.
Qed.

Lemma tally_app i j data1 data2 :
  tally i j (data1 ++ data2) = (tally i j data1 + tally i j data2)%nat.
Proof. unfold tally. rewrite filter_app, length_app. reflexivity. Qed.

Lemma forEach_tally data : forall counts,
  Forall unit_point data -> square counts ->
  Z.of_nat (total counts) + Z.of_nat (length data) < 2 ^ 53 ->
  exists counts',
    forEach visit data (grid_of counts) = Ok (grid_of counts')
    /\ forall i j c, cell counts i j = Some c ->
                     cell counts' i j = Some (c + tally i j data)%nat.
Proof.
  induction data as [|d data IH]; intros counts Hdata [Hlen Hrows] Hbound.
  - exists counts. split; [reflexivity|]. intros i j c H. rewrite H. f_equal.
    unfold tally. simpl. lia.
  - apply Forall_cons in Hdata. destruct Hdata as [[Hx Hy] Hdata].
    destruct (unit_index _ Hy) as (i & Hi & Hi100).
    destruct (unit_index _ Hx) as (j & Hj & Hj100).
    destruct (lookup_lt_is_Some_2 counts i) as [row Hrow]; [lia|].
    assert (Hrl : length row = 100%nat).
    { eapply Forall_lookup_1 in Hrows; eauto. }
    destruct (lookup_lt_is_Some_2 row j) as [c Hc]; [lia|].
    assert (Hctot : (c <= total counts)%nat).
    { etransitivity; [apply (sum_list_with_lookup id row j c Hc)|].
      apply (sum_list_with_lookup sum_list counts i row Hrow). }
    simpl length in Hbound.
    set (counts1 := <[i := <[j := S c]> row]> counts).
    assert (Htot1 : total counts1 = S (total counts)).
    { pose proof (sum_list_with_insert sum_list counts i row (<[j := S c]> row) Hrow) as H1.
      pose proof (sum_list_with_insert id row j c (S c) Hc) as H2.
      unfold total, counts1. simpl in H2. lia. }
    destruct (IH counts1) as (counts' & Hrun & Hcells).
    + exact Hdata.
    + split; [unfold counts1; rewrite length_insert; exact Hlen|].
      apply Forall_insert; [exact Hrows|]. rewrite length_insert. exact Hrl.
    + lia.
    + exists counts'. split.
      * simpl forEach.
        rewrite (visit_counts counts d i j row c Hi Hj Hrow Hc) by lia.
        exact Hrun.
      * intros i' j' c' Hc'.
        rewrite tally_cons. fold (yIndex d) in Hi. fold (xIndex d) in Hj.
        rewrite Hi, Hj.
        pose proof (cell_insert counts i j row c i' j' Hrow Hc) as Hins.
        fold counts1 in Hins.
        destruct (decide (i' = i /\ j' = j)) as [[-> ->]|Hne].
        -- assert (c' = c) as ->.
           { unfold cell in Hc'. rewrite Hrow in Hc'. simpl in Hc'. congruence. }
           rewrite decide_True by auto.
           rewrite (Hcells i j (S c) Hins). f_equal. lia.
        -- rewrite decide_False by (intros [? ?]; apply Hne; split; congruence).
           rewrite Hc' in Hins. rewrite (Hcells i' j' c' Hins). f_equal.
Qed.

Lemma cell_zero i j :
  (i < 100)%nat -> (j < 100)%nat ->
  cell (replicate 100 (replicate 100 0%nat)) i j = Some 0%nat.
Proof.
  intros Hi Hj. unfold cell.
  rewrite lookup_replicate_2 by exact Hi.
  apply (lookup_replicate_2 100 0%nat j Hj).
Qed.

(** X4.  For points of the unit square, cell [(i, j)] of the grid holds
    exactly the number of points whose row index is [i] and whose column
    index is [j]. *)
Theorem getGrid_tally data :
  Forall unit_point data -> Z.of_nat (length data) < 2 ^ 53 ->
  exists grid,
    getGrid data = Ok grid
    /\ forall i j, (i < 100)%nat -> (j < 100)%nat ->
         grid !! i ≫= (.!! j) = Some (count (tally i j data)).
Proof.
  intros Hdata Hlen. unfold getGrid. rewrite initial_grid.
  destruct (forEach_tally data (replicate 100 (replicate 100 0%nat)))
    as (counts & Hrun & Hcells).
  - exact Hdata.
  - split; [apply length_replicate|].
    apply Forall_replicate. apply length_replicate.
  - replace (total (replicate 100 (replicate 100 0%nat))) with 0%nat
      by (vm_compute; reflexivity). lia.
  - exists (grid_of counts). split; [exact Hrun|].
    intros i j Hi Hj.
    pose proof (Hcells i j 0%nat (cell_zero i j Hi Hj)) as Hc.
    unfold cell in Hc. unfold grid_of.
    rewrite list_lookup_fmap.
    destruct (counts !! i) as [row|]; [|discriminate]. simpl in *.
    rewrite list_lookup_fmap, Hc. reflexivity.
Qed.

Lemma getGrid_tally_witness :
  exists grid,
    getGrid [sample (decimal 29 (-2)) (decimal 5 (-1));
             sample (decimal 285 (-3)) (decimal 505 (-3))] = Ok grid
    /\ forall i j, (i < 100)%nat -> (j < 100)%nat ->
         grid !! i ≫= (.!! j)
         = Some (count (tally i j [sample (decimal 29 (-2)) (decimal 5 (-1));
                                   sample (decimal 285 (-3)) (decimal 505 (-3))])).
Proof.
  apply getGrid_tally.
  - repeat constructor; vm_compute; reflexivity.
  - vm_compute. reflexivity.
Defined.

(** X5.  Merging two datasets of the unit square adds their grids cell by
    cell. *)
Theorem getGrid_app data1 data2 :
  Forall unit_point data1 -> Forall unit_point data2 ->
  Z.of_nat (length data1) + Z.of_nat (length data2) < 2 ^ 53 ->
  exists counts1 counts2 counts,
    getGrid data1 = Ok (grid_of counts1)
    /\ getGrid data2 = Ok (grid_of counts2)
    /\ getGrid (data1 ++ data2) = Ok (grid_of counts)
    /\ forall i j, (i < 100)%nat -> (j < 100)%nat ->
         exists c1 c2,
           cell counts1 i j = Some c1 /\ cell counts2 i j = Some c2
           /\ cell counts i j = Some (c1 + c2)%nat.
Proof.
  intros H1 H2 Hlen.
  assert (Hz : total (replicate 100 (replicate 100 0%nat)) = 0%nat)
    by (vm_compute; reflexivity).
  assert (Hsq : square (replicate 100 (replicate 100 0%nat))).
  { split; [apply length_replicate|].
    apply Forall_replicate. apply length_replicate. }
  unfold getGrid. rewrite initial_grid.
  destruct (forEach_tally data1 _ H1 Hsq) as (c1 & R1 & C1); [rewrite Hz; lia|].
  destruct (forEach_tally data2 _ H2 Hsq) as (c2 & R2 & C2); [rewrite Hz; lia|].
  destruct (forEach_tally (data1 ++ data2) (replicate 100 (replicate 100 0%nat)))
    as (c & R & C).
  - apply Forall_app. auto.
  - exact Hsq.
  - rewrite Hz, length_app. lia.
  - exists c1, c2, c. repeat split; auto.
    intros i j Hi Hj.
    pose proof (cell_zero i j Hi Hj) as H0.
    exists (tally i j data1), (tally i j data2).
    rewrite (C1 i j _ H0), (C2 i j _ H0), (C i j _ H0), tally_app.
    repeat split; f_equal.
Qed.

Lemma getGrid_app_witness :
  exists counts1 counts2 counts,
    getGrid [sample (decimal 29 (-2)) (decimal 5 (-1))] = Ok (grid_of counts1)
    /\ getGrid [sample (decimal 285 (-3)) (decimal 505 (-3))] = Ok (grid_of counts2)
    /\ getGrid ([sample (decimal 29 (-2)) (decimal 5 (-1))]
                ++ [sample (decimal 285 (-3)) (decimal 505 (-3))])
       = Ok (grid_of counts)
    /\ forall i j, (i < 100)%nat -> (j < 100)%nat ->
         exists c1 c2,
           cell counts1 i j = Some c1 /\ cell counts2 i j = Some c2
           /\ cell counts i j = Some (c1 + c2)%nat.
Proof.
  apply getGrid_app.
  - repeat constructor; vm_compute; reflexivity.
  - repeat constructor; vm_compute; reflexivity.
  - vm_compute. reflexivity.
Defined.

(** ** Points beside the unit square *)

Lemma forEach_app {A S} (f : S -> A -> result S) data1 data2 s :
  forEach f (data1 ++ data2) s = bind (forEach f data1 s) (forEach f data2).
Proof.
  revert s. induction data1 as [|d data1 IH]; intros s; simpl.
  - reflexivity.
  - destruct (f s d); simpl; auto.
Qed.

Lemma take_plus_assign row k n (w : nat) :
  (w <= length row)%nat ->
  (forall j, array_index k = Some j -> (w <= j)%nat) ->
  take w (plus_assign row k n) = take w row.
Proof.
  intros Hlen Hk. unfold plus_assign, put.
  destruct (array_index k) as [j|]; [|reflexivity].
  specialize (Hk j eq_refl).
  destruct (Nat.ltb_spec j (length row)).
  - apply take_insert_ge. exact Hk.
  - apply take_app_le. exact Hlen.
Qed.

(** X6.  A point whose [y] is in [[0, 1)] and whose [x] is a number outside
    [[0, 1)] is not counted: with or without it, the first 100 cells of
    every row are the same.  When [x] is negative or NaN the write sets a
    property that is no element: no row grows, and the flattened grid
    is the same. *)
Theorem getGrid_x_outside d data :
  in_unit (y d) = true -> is_number (x d) = true -> in_unit (x d) = false ->
  match getGrid data, getGrid (d :: data) with
  | Ok grid, Ok grid' =>
      take 100 <$> grid' = take 100 <$> grid
      /\ (leb (of_Z 1) (x d) = false ->
          length <$> grid' = length <$> grid
          /\ flattenGrid grid' = flattenGrid grid)
  | TypeError, TypeError => True
  | _, _ => False
  end.
Proof.
  intros Hy Hxv Hx.
  assert (Hlast : getGrid (d :: data) = bind (getGrid data) (fun g => visit g d)).
  { unfold getGrid.
    rewrite (forEach_Permutation (d :: data) (data ++ [d]))
      by apply Permutation_cons_append.
    rewrite forEach_app. destruct (forEach visit data _) as [g|]; [|reflexivity].
    simpl. destruct (visit g d); reflexivity. }
  rewrite Hlast.
  destruct (getGrid data) as [grid|] eqn:E; [|exact I].
  destruct (getGrid_rows data grid E) as (Hlen & Hrows & _).
  simpl bind.
  destruct (unit_index _ Hy) as (i & Hi & Hi100).
  destruct (lookup_lt_is_Some_2 grid i) as [row Hrow]; [lia|].
  assert (Hrl : (100 <= length row)%nat).
  { eapply Forall_lookup_1 in Hrows; eauto. }
  unfold visit. rewrite Hi, Hrow. fold (xIndex d).
  assert (Hout : forall j, array_index (xIndex d) = Some j -> (100 <= j)%nat).
  { intros j Hj. destruct (Nat.le_gt_cases 100 j) as [H|H]; [exact H|].
    assert (in_unit (x d) = true); [|congruence].
    apply array_index_unit_iff; eauto. }
  split.
  - rewrite list_fmap_insert.
    rewrite (take_plus_assign row (xIndex d) (of_Z 1) 100 Hrl Hout).
    apply list_insert_id. rewrite list_lookup_fmap, Hrow. reflexivity.
  - intros Hlt.
    assert (Hnone : array_index (xIndex d) = None).
    { destruct (number_cases (x d) Hxv) as [H|[H|[H|H]]]; try congruence.
      - apply negative_index; assumption.
      - unfold xIndex. rewrite H. apply index_NaN. }
    rewrite plus_assign_None by exact Hnone.
    rewrite (list_insert_id grid i row Hrow). split; reflexivity.
Qed.

Lemma getGrid_x_outside_witness :
  match getGrid [sample (decimal 5 (-1)) (decimal 5 (-1))],
        getGrid [sample (neg (decimal 1 (-1))) (decimal 25 (-2));
                 sample (decimal 5 (-1)) (decimal 5 (-1))] with
  | Ok grid, Ok grid' =>
      take 100 <$> grid' = take 100 <$> grid
      /\ (leb (of_Z 1) (neg (decimal 1 (-1))) = false ->
          length <$> grid' = length <$> grid
          /\ flattenGrid grid' = flattenGrid grid)
  | TypeError, TypeError => True
  | _, _ => False
  end.
Proof.
  apply (getGrid_x_outside (sample (neg (decimal 1 (-1))) (decimal 25 (-2)))
           [sample (decimal 5 (-1)) (decimal 5 (-1))]);
    vm_compute; reflexivity.
Defined.

(** ** Counting the points that fall in the grid *)

Lemma getGrid_snoc data d :
  getGrid (data ++ [d]) = bind (getGrid data) (fun g => visit g d).
Proof.
  unfold getGrid. rewrite forEach_app.
  destruct (forEach visit data _) as [g|]; [|reflexivity].
  simpl. destruct (visit g d); reflexivity.
Qed.

Lemma getGrid_in_grid_aux data :
  Forall (fun d => in_unit (y d) = true /\ is_number (x d) = true) data ->
  Z.of_nat (length data) < 2 ^ 53 ->
  exists grid counts,
    getGrid data = Ok grid
    /\ take 100 <$> grid = grid_of counts
    /\ square counts
    /\ total counts = length (filter (fun d => in_unit (x d) = true) data).
Proof.
  induction data as [|d data IH] using rev_ind; intros Hall Hlen.
  - exists (grid_of (replicate 100 (replicate 100 0%nat))),
           (replicate 100 (replicate 100 0%nat)).
    split; [unfold getGrid; now rewrite initial_grid|].
    split; [vm_compute; reflexivity|].
    split; [|vm_compute; reflexivity].
    split; [apply length_replicate|].
    apply Forall_replicate, length_replicate.
  - apply Forall_app in Hall. destruct Hall as [Hall Hd].
    apply Forall_cons in Hd. destruct Hd as [[Hy Hxv] _].
    rewrite length_app in Hlen. simpl length in Hlen.
    destruct (IH Hall ltac:(lia)) as (grid & counts & Hrun & Htake & [Hcl Hcr] & Htot).
    rewrite getGrid_snoc, Hrun. simpl bind.
    rewrite filter_app, length_app, <- Htot.
    assert (Hfl : (total counts <= length data)%nat).
    { rewrite Htot. apply length_filter. }
    destruct (unit_index _ Hy) as (i & Hi & Hi100).
    destruct (lookup_lt_is_Some_2 counts i) as [crow Hcrow]; [lia|].
    assert (Hcrl : length crow = 100%nat).
    { eapply Forall_lookup_1 in Hcr; eauto. }
    assert (Hgi : (take 100 <$> grid) !! i = Some (count <$> crow)).
    { rewrite Htake. unfold grid_of. rewrite list_lookup_fmap, Hcrow. reflexivity. }
    rewrite list_lookup_fmap in Hgi.
    destruct (grid !! i) as [row|] eqn:Hrow; [|discriminate].
    simpl in Hgi. injection Hgi as Hrt.
    assert (Hrl : (100 <= length row)%nat).
    { assert (length (take 100 row) = 100%nat) as H
        by (rewrite Hrt, length_fmap; exact Hcrl).
      rewrite length_take in H. lia. }
    unfold visit. rewrite Hi, Hrow. fold (xIndex d).
    destruct (in_unit (x d)) eqn:Hx.
    + (* counted *)
      destruct (unit_index _ Hx) as (j & Hj & Hj100). fold (xIndex d) in Hj.
      destruct (lookup_lt_is_Some_2 crow j) as [c Hc]; [lia|].
      assert (Hrj : row !! j = Some (count c)).
      { rewrite <- (lookup_take_lt row 100 j) by lia.
        rewrite Hrt, list_lookup_fmap, Hc. reflexivity. }
      assert (Hctot : (c <= total counts)%nat).
      { etransitivity; [apply (sum_list_with_lookup id crow j c Hc)|].
        apply (sum_list_with_lookup sum_list counts i crow Hcrow). }
      eexists _, (<[i := <[j := S c]> crow]> counts).
      split; [reflexivity|]. split; [|split; [split|]].
      * rewrite list_fmap_insert.
        transitivity (<[i := count <$> <[j := S c]> crow]> (grid_of counts));
          [|unfold grid_of; symmetry; apply list_fmap_insert].
        rewrite <- Htake. f_equal.
        unfold plus_assign, put, get. rewrite Hj, Hrj.
        destruct (Nat.ltb_spec j (length row)); [|lia].
        rewrite take_insert_lt by lia.
        rewrite Hrt, list_fmap_insert. f_equal.
        change (ToNumber (default VUndefined (Some (count c))))
          with (of_Z (Z.of_nat c)).
        unfold count. rewrite add_of_Z_1 by lia. do 2 f_equal. lia.
      * rewrite length_insert. exact Hcl.
      * apply Forall_insert; [exact Hcr|]. rewrite length_insert. exact Hcrl.
      * pose proof (sum_list_with_insert sum_list counts i crow (<[j := S c]> crow) Hcrow) as H1.
        pose proof (sum_list_with_insert id crow j c (S c) Hc) as H2.
        rewrite filter_cons_True, filter_nil by exact Hx.
        unfold total in *. simpl in H2. simpl length. lia.
    + (* not counted *)
      assert (Hout : forall j, array_index (xIndex d) = Some j -> (100 <= j)%nat).
      { intros j Hj. destruct (Nat.le_gt_cases 100 j) as [H|H]; [exact H|].
        assert (in_unit (x d) = true); [|congruence].
        apply array_index_unit_iff; eauto. }
      eexists _, counts.
      split; [reflexivity|]. split; [|split; [split; assumption|]].
      * rewrite list_fmap_insert.
        rewrite (take_plus_assign row (xIndex d) (of_Z 1) 100 Hrl Hout).
        rewrite <- Htake. apply list_insert_id.
        rewrite list_lookup_fmap, Hrow. reflexivity.
      * rewrite filter_cons_False, filter_nil by congruence.
        simpl length. lia.
Qed.

(** X7.  For points whose [y] lies in [[0, 1)] and whose [x] is any
    number, the first 100 cells of the 100 rows hold exact counts, and
    these counts sum to the number of points whose [x] lies in [[0, 1)]:
    the other points are left out of the counts. *)
Theorem getGrid_in_grid data :
  Forall (fun d => in_unit (y d) = true /\ is_number (x d) = true) data ->
  Z.of_nat (length data) < 2 ^ 53 ->
  exists grid counts,
    getGrid data = Ok grid
    /\ take 100 <$> grid = grid_of counts
    /\ square counts
    /\ total counts = length (filter (fun d => in_unit (x d) = true) data).
Proof. apply getGrid_in_grid_aux. Qed.

Lemma getGrid_in_grid_witness :
  exists grid counts,
    getGrid [sample (of_Z 1) (decimal 5 (-1));
             sample (decimal 25 (-2)) (decimal 75 (-2));
             sample NaN (S754_zero true)] = Ok grid
    /\ take 100 <$> grid = grid_of counts
    /\ square counts
    /\ total counts
       = length (filter (fun d => in_unit (x d) = true)
                   [sample (of_Z 1) (decimal 5 (-1));
                    sample (decimal 25 (-2)) (decimal 75 (-2));
                    sample NaN (S754_zero true)]).
Proof.
  apply getGrid_in_grid.
  - repeat constructor.
  - vm_compute. reflexivity.
Defined.

(** ** Flattening any grid *)

(** X8.  In the flattening of a grid whose rows all have length [R], cell
    [j] of row [i] is found at position [i * R + j]. *)
Theorem flattenGrid_row_major {A} (grid : list (list A)) (R i j : nat) :
  Forall (fun row => length row = R) grid -> (j < R)%nat ->
  flattenGrid grid !! (i * R + j)%nat = grid !! i ≫= (.!! j).
Proof. apply lookup_flattenGrid. Qed.

Lemma flattenGrid_row_major_witness :
  flattenGrid [[of_Z 1; of_Z 2; of_Z 3]; [of_Z 4; of_Z 5; of_Z 6]] !! (1 * 3 + 2)%nat
  = [[of_Z 1; of_Z 2; of_Z 3]; [of_Z 4; of_Z 5; of_Z 6]] !! 1%nat ≫= (.!! 2%nat).
Proof.
  apply (flattenGrid_row_major
           [[of_Z 1; of_Z 2; of_Z 3]; [of_Z 4; of_Z 5; of_Z 6]] 3 1 2).
  - repeat constructor.
  - lia.
Defined.


(** * Skew, parsing and events *)

Lemma sub_neg a b : sub a (neg b) = add a b.
Proof.
  destruct a as [sa|sa| |sa ma ea]; destruct b as [sb|sb| |sb mb eb];
    try reflexivity;
    destruct sa, sb; reflexivity.
Qed.

Lemma add_neg a b : add a (neg b) = sub a b.
Proof.
  rewrite <- (sub_neg a (neg b)). f_equal.
  destruct b as [s|s| |s m e]; simpl; try reflexivity; now rewrite negb_involutive.
Qed.

(** X10.  Changing the sign of the skew exchanges the two formulas: with
    skew [- k] the global layer gets [opacity + k] and the local layer
    [opacity - k], for all numbers, NaN, infinities and zeros included. *)
Theorem marks_skew_symmetry (localData globalData : list SessionData)
    (displayPoints : bool) (opacity bandwidth k : number) :
  let s skew := {| localData := Some localData; globalData := Some globalData;
                   displayPoints := displayPoints; opacity := opacity;
                   bandwidth := bandwidth; skew := skew |} in
  exists ms ms',
    marks (s k) = Some ms /\ marks (s (neg k)) = Some ms'
    /\ (exists o1 o2,
          ms !! 1%nat = Some (Some (Plot_density globalData o1))
          /\ ms' !! 2%nat = Some (Some (Plot_density localData o2))
          /\ Density.strokeOpacity o2 = Density.strokeOpacity o1
          /\ Density.fillOpacity o2 = Some (Density.strokeOpacity o1))
    /\ (exists o1 o2,
          ms !! 2%nat = Some (Some (Plot_density localData o1))
          /\ ms' !! 1%nat = Some (Some (Plot_density globalData o2))
          /\ Density.strokeOpacity o2 = Density.strokeOpacity o1).
Proof.
  intros s. eexists _, _. split; [reflexivity|]. split; [reflexivity|].
  split.
  - eexists _, _. split; [reflexivity|]. split; [reflexivity|].
    simpl. rewrite add_neg. auto.
  - eexists _, _. split; [reflexivity|]. split; [reflexivity|].
    simpl. apply sub_neg.
Qed.

Lemma sub_0 a : sub a (of_Z 0) = a.
Proof. destruct a as [[]|[]| |s m e]; reflexivity. Qed.

Lemma add_0 a :
  add a (of_Z 0) = match a with S754_zero true => S754_zero false | _ => a end.
Proof. destruct a as [[]|[]| |s m e]; reflexivity. Qed.

(** X11.  At skew 0 both density layers get the stored opacity itself; the
    only difference is that the local layer gets [+0] when the opacity is
    [-0]. *)
Theorem marks_skew_zero (localData globalData : list SessionData)
    (displayPoints : bool) (opacity bandwidth : number) :
  let s := {| localData := Some localData; globalData := Some globalData;
              displayPoints := displayPoints; opacity := opacity;
              bandwidth := bandwidth; skew := of_Z 0 |} in
  exists ms o1 o2,
    marks s = Some ms
    /\ ms !! 1%nat = Some (Some (Plot_density globalData o1))
    /\ ms !! 2%nat = Some (Some (Plot_density localData o2))
    /\ Density.strokeOpacity o1 = opacity
    /\ Density.strokeOpacity o2
       = match opacity with S754_zero true => S754_zero false | _ => opacity end
    /\ Density.fillOpacity o2 = Some (Density.strokeOpacity o2).
Proof.
  intros s. eexists _, _, _. split; [reflexivity|].
  split; [reflexivity|]. split; [reflexivity|].
  cbn [Density.strokeOpacity Density.fillOpacity].
  rewrite sub_0, add_0. auto.
Qed.

(** X12.  No handler validates its input: when the text of the opacity
    slider does not parse, the stored opacity is NaN and both density
    layers get the opacity NaN, whatever the skew. *)
Theorem handleOpacityChange_NaN (event : ChangeEvent) (s : State) :
  parseFloat (target_value event) = NaN ->
  opacity (handleOpacityChange event s) = NaN
  /\ forall ms, marks (handleOpacityChange event s) = Some ms ->
       exists data1 o1 data2 o2,
         ms !! 1%nat = Some (Some (Plot_density data1 o1))
         /\ ms !! 2%nat = Some (Some (Plot_density data2 o2))
         /\ Density.strokeOpacity o1 = NaN
         /\ Density.strokeOpacity o2 = NaN
         /\ Density.fillOpacity o2 = Some NaN.
Proof.
  intros Hparse. unfold handleOpacityChange. rewrite Hparse.
  split; [reflexivity|]. intros ms Hms.
  unfold marks in Hms. cbn [localData globalData setOpacity] in Hms.
  destruct (localData s) as [l|]; [|discriminate].
  destruct (globalData s) as [g|]; [|discriminate].
  injection Hms as <-.
  eexists _, _, _, _. split; [reflexivity|]. split; [reflexivity|].
  cbn. auto.
Qed.

Lemma handleOpacityChange_NaN_witness :
  opacity (handleOpacityChange {| target_value := "" |} initial) = NaN
  /\ forall ms, marks (handleOpacityChange {| target_value := "" |} initial) = Some ms ->
       exists data1 o1 data2 o2,
         ms !! 1%nat = Some (Some (Plot_density data1 o1))
         /\ ms !! 2%nat = Some (Some (Plot_density data2 o2))
         /\ Density.strokeOpacity o1 = NaN
         /\ Density.strokeOpacity o2 = NaN
         /\ Density.fillOpacity o2 = Some NaN.
Proof. apply handleOpacityChange_NaN. reflexivity. Defined.

(** X13.  [fetchData] replaces both datasets or neither: both when the two
    requests resolve with data, neither otherwise; it never touches the
    visual parameters, and it logs exactly when a request rejects. *)
Theorem fetchData_both_or_neither (l g : Fetched) (s : State) :
  let s' := fst (fetchData l g s) in
  ((exists ld gd,
      l = Resolved (Some ld) /\ g = Resolved (Some gd)
      /\ localData s' = Some ld /\ globalData s' = Some gd)
   \/ (s' = s /\ ~ (exists ld gd, l = Resolved (Some ld) /\ g = Resolved (Some gd))))
  /\ displayPoints s' = displayPoints s
  /\ opacity s' = opacity s /\ bandwidth s' = bandwidth s /\ skew s' = skew s
  /\ (snd (fetchData l g s) = true
      <-> l = Rejected \/ (exists v, l = Resolved v) /\ g = Rejected).
Proof.
  intros s'. subst s'.
  split; [|split; [|split; [|split; [|split]]]].
  - destruct l as [[ld|]|]; destruct g as [[gd|]|]; simpl;
      first [ left; eexists _, _; repeat split; reflexivity
            | right; split; [reflexivity|intros (? & ? & ? & ?); discriminate] ].
  - destruct l as [[?|]|], g as [[?|]|]; reflexivity.
  - destruct l as [[?|]|], g as [[?|]|]; reflexivity.
  - destruct l as [[?|]|], g as [[?|]|]; reflexivity.
  - destruct l as [[?|]|], g as [[?|]|]; reflexivity.
  - destruct l as [[?|]|], g as [[?|]|]; simpl; split;
      first [ discriminate
            | intros [?|[_ ?]]; discriminate
            | intros _; left; reflexivity
            | intros _; right; split; [eexists; reflexivity|reflexivity]
            | reflexivity ].
Qed.

Lemma handle_datasets s ev :
  is_Some (localData s) /\ is_Some (globalData s) ->
  is_Some (localData (handle s ev)) /\ is_Some (globalData (handle s ev)).
Proof.
  intros [Hl Hg]. destruct ev as [l g| |e|e|e]; simpl; auto.
  destruct l as [[ld|]|]; destruct g as [[gd|]|]; simpl; auto.
Qed.

Lemma run_snoc events ev : run (events ++ [ev]) = handle (run events) ev.
Proof. unfold run. now rewrite fold_left_app. Qed.

Lemma run_datasets events :
  is_Some (localData (run events)) /\ is_Some (globalData (run events)).
Proof.
  induction events as [|ev events IH] using rev_ind.
  - split; eexists; reflexivity.
  - rewrite run_snoc. now apply handle_datasets.
Qed.

(** X14.  From the initial state, whatever events follow, both datasets
    stay defined, so the plot effect never returns early: the marks are
    always built, six entries of which five or six are marks. *)
Theorem run_marks (events : list Event) :
  exists ms,
    marks (run events) = Some ms
    /\ length ms = 6%nat
    /\ length (omap id ms) = if displayPoints (run events) then 6%nat else 5%nat.
Proof.
  destruct (run_datasets events) as [[l Hl] [g Hg]].
  unfold marks. rewrite Hl, Hg. eexists. split; [reflexivity|].
  split; [reflexivity|].
  destruct (displayPoints (run events)); reflexivity.
Qed.

Lemma latest_snoc {A} (pick : Event -> option A) events ev a :
  latest pick (events ++ [ev]) a
  = match pick ev with Some v => v | None => latest pick events a end.
Proof.
  unfold latest. rewrite omap_app. simpl.
  destruct (pick ev) as [v|].
  - rewrite last_snoc. reflexivity.
  - now rewrite app_nil_r.
Qed.

Lemma fetchData_parameters l g s :
  displayPoints (fst (fetchData l g s)) = displayPoints s
  /\ opacity (fst (fetchData l g s)) = opacity s
  /\ bandwidth (fst (fetchData l g s)) = bandwidth s
  /\ skew (fst (fetchData l g s)) = skew s.
Proof. destruct l as [[?|]|]; destruct g as [[?|]|]; repeat split. Qed.

(** X15.  After any sequence of events each parameter holds the number
    parsed from the latest edit of its own slider, or its initial value
    when there was none, and the points are shown exactly when the box
    was toggled an odd number of times: edits of one control never
    disturb another. *)
Theorem run_parameters (events : list Event) :
  opacity (run events) = latest opacityOf events (of_Z 5)
  /\ bandwidth (run events) = latest bandwidthOf events (of_Z 20)
  /\ skew (run events) = latest skewOf events (of_Z 0)
  /\ displayPoints (run events) = Nat.odd (toggles events).
Proof.
  induction events as [|ev events (IHo & IHb & IHs & IHd)] using rev_ind.
  - repeat split.
  - rewrite run_snoc, !latest_snoc.
    unfold toggles. rewrite sum_list_with_app. fold (toggles events).
    destruct ev as [l g| |e|e|e]; simpl;
      rewrite ?Nat.add_0_r; auto.
    + destruct (fetchData_parameters l g (run events)) as (-> & -> & -> & ->).
      auto.
    + replace (toggles events + 1)%nat with (S (toggles events)) by lia.
      rewrite Nat.odd_succ, <- Nat.negb_odd, <- IHd. auto.
Qed.

(** ** The opacity the component starts with *)

Lemma run_opacity events :
  opacity (run events) = latest opacityOf events (of_Z 5).
Proof.
  induction events as [|ev events IH] using rev_ind; [reflexivity|].
  rewrite run_snoc, latest_snoc.
  destruct ev as [l g| |e|e|e]; simpl; auto.
  destruct (fetchData_parameters l g (run events)) as (_ & -> & _). exact IH.
Qed.

Lemma latest_untouched {A} (pick : Event -> option A) events a :
  (exists ev v, ev ∈ events /\ pick ev = Some v) \/ latest pick events a = a.
Proof.
  induction events as [|ev events IH] using rev_ind; [right; reflexivity|].
  rewrite latest_snoc. destruct (pick ev) as [v|] eqn:E.
  - left. exists ev, v. split; [|exact E].
    apply elem_of_app. right. apply list_elem_of_here.
  - destruct IH as [(ev' & v & Hin & Hv)|IH]; [left|right; exact IH].
    exists ev', v. split; [|exact Hv]. apply elem_of_app. left. exact Hin.
Qed.

(** C3.  The opacity starts at 5, above the maximum 1 that its own slider
    declares, while the other parameters start within their ranges.
    Nothing clamps it: the first plot gives the opacity 5 to both density
    layers, and whatever else happens (data arriving, the box toggled,
    the other sliders moved) the stored opacity stays 5, out of range,
    until the opacity slider itself is moved. *)
Theorem initial_opacity_out_of_range :
  opacity initial = of_Z 5
  /\ Range.contains opacityInput (opacity initial) = false
  /\ Range.contains bandwidthInput (bandwidth initial) = true
  /\ Range.contains skewInput (skew initial) = true
  /\ displayPoints initial = false
  /\ (exists ms o1 o2,
        marks initial = Some ms
        /\ ms !! 1%nat = Some (Some (Plot_density [] o1))
        /\ ms !! 2%nat = Some (Some (Plot_density [] o2))
        /\ Density.strokeOpacity o1 = of_Z 5
        /\ Density.strokeOpacity o2 = of_Z 5
        /\ Density.fillOpacity o2 = Some (of_Z 5))
  /\ (forall events,
        opacity (run events) = latest opacityOf events (of_Z 5))
  /\ (forall events,
        (exists event, OpacityChanged event ∈ events)
        \/ (opacity (run events) = of_Z 5
            /\ Range.contains opacityInput (opacity (run events)) = false)).
Proof.
  split; [reflexivity|].
  split; [vm_compute; reflexivity|].
  split; [vm_compute; reflexivity|].
  split; [vm_compute; reflexivity|].
  split; [reflexivity|].
  split.
  { eexists _, _, _. split; [reflexivity|].
    split; [reflexivity|]. split; [reflexivity|].
    cbn [Density.strokeOpacity Density.fillOpacity].
    repeat split; vm_compute; reflexivity. }
  split; [apply run_opacity|].
  intros events.
  destruct (latest_untouched opacityOf events (of_Z 5))
    as [(ev & v & Hin & Hv)|H].
  - left. destruct ev as [l g| |e|e|e]; try discriminate.
    exists e. exact Hin.
  - right. rewrite run_opacity, H. split; [reflexivity|].
    vm_compute. reflexivity.
Qed.
